(** * audio-marker: waveform peak extraction, normalisation, delivery, offline cache

    A shallow embedding of the peak pipeline of the audio-marker application:
    - [src/lib/peaks.ts] (both decode back ends: ffmpeg raw PCM and
      audiowaveform extrema pairs),
    - [src/lib/audioReencode.ts],
    - [src/app/api/audio/[audioId]/peaks/route.ts],
    - [src/app/api/upload/route.ts],
    - the service worker ([sw.js]).

    Numbers.  A finite JavaScript number is a rational ([Q]); the two
    infinities and [NaN] are kept as separate values because the code can
    produce and read them (a division by zero, a read of [undefined] past the
    end of an array, a float sample that is not finite).  The values of the
    peaks are followed in exact arithmetic: comparisons and absolute values
    are exact on doubles, and so is the product by 10000 of a float32 sample
    or of an integer divided by 128; only the final quotient by 10000 stands
    for the double nearest to it.  The number of buckets is an integer that
    decides the shape of the result, so the product it is the ceiling of is
    rounded to the nearest double, as the machine does ([JS.double], the
    binary64 rounding of [SpecFloat]).

    Effects.  The external tools (ffprobe, ffmpeg, audiowaveform) are
    subprocesses: their outcome is an input of the embedded function.  The
    file system and the database are finite maps threaded explicitly. *)

From Stdlib Require Import ZArith QArith Qround Qabs List String Ascii Bool Lia Lqa.
From Stdlib Require SpecFloat.
From stdpp Require Import base option list strings gmap.

Close Scope Q_scope.
Local Open Scope Z_scope.

(** ** JavaScript values *)

Module JS.

(** A JS [number] in exact arithmetic. [Inf false] is [+Infinity],
    [Inf true] is [-Infinity]. *)
Inductive number : Type :=
| Fin (q : Q)
| Inf (negative : bool)
| NaN.

(** Thrown values that the embedded code can observe. *)
Inductive error : Type :=
| RangeError            (* new Array(n) with n not an array length *)
| ToolError (tool : string)   (* a subprocess failed or its output was rejected *)
| ENOENT (path : string).     (* unlink / readFile on a missing file *)

Inductive result (A : Type) : Type :=
| Ok (a : A)
| Err (e : error).
Arguments Ok {A} a.
Arguments Err {A} e.

Definition bind {A B} (r : result A) (k : A -> result B) : result B :=
  match r with
  | Ok a => k a
  | Err e => Err e
  end.

Definition Qneg_bool (q : Q) : bool := (Qnum q <? 0)%Z.
Definition Qzero_bool (q : Q) : bool := (Qnum q =? 0)%Z.

(** [Math.abs] *)
Definition Math_abs (x : number) : number :=
  match x with
  | Fin q => Fin (Qabs q)
  | Inf _ => Inf false
  | NaN => NaN
  end.

(** [a > b]; any comparison with [NaN] is false. *)
Definition gt (a b : number) : bool :=
  match a, b with
  | NaN, _ | _, NaN => false
  | Fin x, Fin y => negb (Qle_bool x y)
  | Inf false, Inf false => false
  | Inf false, _ => true
  | _, Inf true => match a with Inf true => false | _ => true end
  | _, _ => false
  end.

(** [Math.max] of two arguments. *)
Definition Math_max (a b : number) : number :=
  match a, b with
  | NaN, _ | _, NaN => NaN
  | Fin x, Fin y => if Qle_bool x y then Fin y else Fin x
  | Inf false, _ | _, Inf false => Inf false
  | Inf true, y => y
  | x, Inf true => x
  end.

(** [Math.round]: nearest integer, ties towards [+Infinity]. *)
Definition Math_round (x : number) : number :=
  match x with
  | Fin q => Fin (inject_Z (Qfloor (q + (1 # 2))))
  | other => other
  end.

(** [a * b] in exact arithmetic *)
Definition mul (a b : number) : number :=
  match a, b with
  | NaN, _ | _, NaN => NaN
  | Fin x, Fin y => Fin (x * y)
  | Inf s, Fin y | Fin y, Inf s =>
      if Qzero_bool y then NaN else Inf (xorb s (Qneg_bool y))
  | Inf s, Inf t => Inf (xorb s t)
  end.

(** [a / b] (the sign of a zero divisor is taken as positive) *)
Definition div (a b : number) : number :=
  match a, b with
  | NaN, _ | _, NaN => NaN
  | Fin x, Fin y =>
      if Qzero_bool y
      then (if Qzero_bool x then NaN else Inf (Qneg_bool x))
      else Fin (x / y)
  | Inf s, Fin y => Inf (xorb s (Qneg_bool y))
  | Fin _, Inf _ => Fin 0
  | Inf _, Inf _ => NaN
  end.

(** [2^e] *)
Definition pow2 (e : Z) : Q :=
  match e with
  | Z0 => 1%Q
  | Zpos p => inject_Z (Z.pow_pos 2 p)
  | Zneg p => (1 # Pos.pow 2 p)%Q
  end.

(** The number a binary floating-point datum stands for. *)
Definition number_of_float (f : SpecFloat.spec_float) : number :=
  match f with
  | SpecFloat.S754_zero _ => Fin 0
  | SpecFloat.S754_infinity s => Inf s
  | SpecFloat.S754_nan => NaN
  | SpecFloat.S754_finite s m e =>
      Fin ((if s then inject_Z (Zneg m) else inject_Z (Zpos m)) * pow2 e)
  end.

(** The double nearest to the rational [q] (binary64: 53 bits of precision,
    exponents below 1024; round to nearest, ties to even, overflow to an
    infinity): what an arithmetic operation returns when its exact result is
    [q].  The rounding is that of the correctly rounded quotient of the
    numerator by the denominator. *)
Definition double (q : Q) : number :=
  match Qnum q with
  | Z0 => Fin 0
  | Zpos n =>
      number_of_float
        (SpecFloat.SFdiv 53 1024 (SpecFloat.S754_finite false n 0)
           (SpecFloat.S754_finite false (Qden q) 0))
  | Zneg n =>
      number_of_float
        (SpecFloat.SFdiv 53 1024 (SpecFloat.S754_finite true n 0)
           (SpecFloat.S754_finite false (Qden q) 0))
  end.

(** [a * b] as the machine computes it.  The operands are doubles (a
    rational that is not one stands for the double nearest to it, as
    [parseFloat] reads a decimal); the result is their exact product, rounded
    to the nearest double. *)
Definition mul64 (a b : number) : number :=
  match a, b with
  | Fin x, Fin y =>
      match double x, double y with
      | Fin x', Fin y' => double (x' * y')
      | a', b' => mul a' b'
      end
  | _, _ => mul a b
  end.

(** [Math.ceil] *)
Definition Math_ceil (x : number) : number :=
  match x with
  | Fin q => Fin (inject_Z (Qceiling q))
  | other => other
  end.

(** [for (let j = lo; j < hi; j++)]: the values taken by [j], for [0 <= lo]. *)
Definition range (lo hi : Z) : list Z :=
  map Z.of_nat (seq (Z.to_nat lo) (Z.to_nat (hi - lo))).

(** [new Array(n)] accepts an integer [0 <= n <= 2^32 - 1] and throws a
    [RangeError] otherwise. *)
Definition MAX_ARRAY_LENGTH : Z := 4294967295.

Definition valid_array_length (n : Z) : bool :=
  (0 <=? n) && (n <=? MAX_ARRAY_LENGTH).

(** The length of [new Array(x)], when it does not throw. *)
Definition array_length (x : number) : option Z :=
  match x with
  | Fin q =>
      if Qeq_bool q (inject_Z (Qfloor q)) && valid_array_length (Qfloor q)
      then Some (Qfloor q)
      else None
  | _ => None
  end.

End JS.

Import JS.

Notation "x <- r ;; k" := (JS.bind r (fun x => k))
  (at level 100, r at next level, right associativity, only parsing).

(** ** src/lib/peaks.ts *)

(** [interface PeaksData], shared by both back ends. *)
Record PeaksData : Type := mkPeaksData {
  peaks : list number;
  duration : number;
  sampleRate : Z;
  length_ : nat
}.

(** *** The ffmpeg (raw PCM) back end *)

Module PeaksFfmpeg.

Definition PEAKS_PER_SECOND : Z := 100.
Definition DECODE_SAMPLE_RATE : Z := 8000.


(** [samples[j]!]: an element of the [Float32Array] is any float, [NaN] and
    the infinities included; a read outside the typed array is [undefined],
    which [Math.abs] turns into [NaN]. *)
Definition sample (samples : list number) (j : Z) : number :=
  match nth_error samples (Z.to_nat j) with
  | Some s => s
  | None => NaN
  end.

(** The inner loop of one bucket: [let max = 0; for (j = start; j < end; j++) ...]. *)
Definition bucketMax (samples : list number) (start end_ : Z) : number :=
  fold_left
    (fun max j =>
       let abs := Math_abs (sample samples j) in
       if gt abs max then abs else max)
    (range start end_) (Fin 0%Q).

(** The body of the outer loop: the value stored in [peaks[i]]. *)
Definition peakAt (samples : list number) (samplesPerPeak i : Z) : number :=
  let start := i * samplesPerPeak in
  let end_ := Z.min (start + samplesPerPeak) (Z.of_nat (length samples)) in
  let max := bucketMax samples start end_ in
  div (Math_round (mul max (Fin 10000%Q))) (Fin 10000%Q).

(** [Math.ceil(duration * PEAKS_PER_SECOND)]; the product is a double. *)
Definition totalPeaks (duration : number) : number :=
  Math_ceil (mul64 duration (Fin (inject_Z PEAKS_PER_SECOND))).

(** [generatePeaks], from the two awaited decoder results on.  [new Array]
    throws unless [totalPeaks] is an array length; the quotient
    [samples.length / totalPeaks] of two integers below [2^53] has the floor
    of the exact quotient (with no bucket at all it is not used). *)
Definition generatePeaks (duration : result number) (rawPcm : result (list number))
  : result PeaksData :=
  duration <- duration ;;
  samples <- rawPcm ;;
  match array_length (totalPeaks duration) with
  | Some totalPeaks =>
      let samplesPerPeak := Z.max 1 (Z.of_nat (length samples) / totalPeaks) in
      let peaks := map (peakAt samples samplesPerPeak) (range 0 totalPeaks) in
      Ok {| peaks := peaks;
            duration := duration;
            sampleRate := PEAKS_PER_SECOND;
            length_ := length peaks |}
  | None => Err RangeError
  end.

End PeaksFfmpeg.

(** *** The audiowaveform (extrema pair) back end *)

Module PeaksAudiowaveform.

Definition PEAKS_PER_SECOND : Z := 50.

(** [interface AudiowaveformData] *)
Record AudiowaveformData : Type := mkAudiowaveformData {
  version : Z;
  channels : Z;
  sample_rate : Z;
  samples_per_pixel : Z;
  bits : Z;
  length : Z;
  data : list Q
}.

(** [generateWaveformData]: [tool] is the parsed standard output of the
    subprocess; an empty [data] array is rejected. *)
Definition generateWaveformData (tool : result AudiowaveformData)
  : result AudiowaveformData :=
  match tool with
  | Ok d =>
      match data d with
      | [] => Err (ToolError "audiowaveform")
      | _ :: _ => Ok d
      end
  | Err _ => Err (ToolError "audiowaveform")
  end.

(** [data[i]] where the result is passed to [Math.abs]: a read past the end
    is [undefined], which [Math.abs] turns into [NaN]. *)
Definition at_ (data : list Q) (i : Z) : number :=
  match nth_error data (Z.to_nat i) with
  | Some q => Fin q
  | None => NaN
  end.

(** The body of the loop: the value pushed for index [i]. *)
Definition peakOfPair (data : list Q) (i : Z) : number :=
  let min := Math_abs (at_ data i) in
  let max := Math_abs (at_ data (i + 1)) in
  let peak := Math_max min max in
  let normalized := div peak (Fin 128%Q) in
  div (Math_round (mul normalized (Fin 10000%Q))) (Fin 10000%Q).

(** [for (let i = 0; i < data.length; i += 2)]: the values taken by [i]. *)
Definition pairIndices (n : nat) : list Z :=
  map (fun k => 2 * Z.of_nat k) (seq 0 (Nat.div2 (S n))).

Definition generatePeaks (tool : result AudiowaveformData) : result PeaksData :=
  waveformData <- generateWaveformData tool ;;
  let peaks :=
    map (peakOfPair (data waveformData))
        (pairIndices (List.length (data waveformData))) in
  let duration :=
    div (Fin (inject_Z (length waveformData)))
        (Fin (inject_Z (sample_rate waveformData))) in
  Ok {| peaks := peaks;
        duration := duration;
        sampleRate := PEAKS_PER_SECOND;
        length_ := List.length peaks |}.

End PeaksAudiowaveform.

(** ** Strings and paths *)

Module Str.

(** [String.prototype.startsWith] *)
Definition startsWith (s p : string) : bool := String.prefix p s.

(** [String.prototype.endsWith] *)
Definition endsWith (s e : string) : bool :=
  let n := String.length s in
  let k := String.length e in
  (k <=? n)%nat && String.eqb (String.substring (n - k) k s) e.

(** [String.prototype.includes] *)
Definition includes (s sub : string) : bool :=
  match String.index 0 sub s with
  | Some _ => true
  | None => false
  end.

Definition lowerAscii (c : ascii) : ascii :=
  let n := nat_of_ascii c in
  if (65 <=? n)%nat && (n <=? 90)%nat then ascii_of_nat (n + 32) else c.

(** [String.prototype.toLowerCase] on the ASCII strings a URL path is made of. *)
Fixpoint toLowerCase (s : string) : string :=
  match s with
  | EmptyString => EmptyString
  | String c rest => String (lowerAscii c) (toLowerCase rest)
  end.

(** [s] up to its first [#]: a URL without its fragment. *)
Fixpoint withoutFragment (s : string) : string :=
  match s with
  | EmptyString => EmptyString
  | String c rest =>
      if Ascii.eqb c "#" then EmptyString else String c (withoutFragment rest)
  end.

(** The rest of [s] after the prefix [p], when [s] starts with [p]. *)
Definition stripPrefix (p s : string) : option string :=
  if String.prefix p s
  then Some (String.substring (String.length p) (String.length s - String.length p) s)
  else None.

End Str.

Module Path.

(** A file path in the form [path.parse] gives it; the path itself is
    [path.join(dir, name + ext)]. *)
Record ParsedPath : Type := mkPath {
  dir : string;
  name : string;
  ext : string
}.

(** [path.join(dir, base)] for a normalised [dir] and a file name [base]. *)
Definition join (dir base : string) : string := dir +:+ "/" +:+ base.

Definition format (p : ParsedPath) : string := join (dir p) (name p +:+ ext p).

(** [path.parse(path.join(base, p))] for a relative path [p] in normal form
    that stays below [base] (no [..]): the directory of [p], when it has one,
    is kept. *)
Definition resolve (base : string) (p : ParsedPath) : ParsedPath :=
  {| dir := if String.eqb (dir p) "" then base else join base (dir p);
     name := name p;
     ext := ext p |}.

End Path.

(** ** The file system *)

Module Fs.

(** What a file holds: bytes, or the [JSON.stringify] of a peaks object. *)
Inductive FileData : Type :=
| Raw (bytes : list Byte.byte)
| PeaksJson (pd : PeaksData).

(** The calls made on the file system and the encoder, in order. *)
Inductive Call : Type :=
| CallEncode (input output : string)
| CallUnlink (path : string)
| CallReadFile (path : string)
| CallWriteFile (path : string) (d : FileData).

Record Disk : Type := mkDisk {
  files : gmap string FileData;
  journal : list Call
}.

(** A computation on the disk that may throw; the disk reached before the
    throw is kept. *)
Definition io (A : Type) : Type := Disk -> result A * Disk.

Definition ret {A} (a : A) : io A := fun d => (Ok a, d).

Definition bind {A B} (m : io A) (k : A -> io B) : io B :=
  fun d =>
    match m d with
    | (Ok a, d') => k a d'
    | (Err e, d') => (Err e, d')
    end.

Definition throw {A} (e : error) : io A := fun d => (Err e, d).

Definition record (c : Call) : io unit :=
  fun d => (Ok tt, {| files := files d; journal := journal d ++ [c] |}).

Definition setFiles (f : gmap string FileData -> gmap string FileData) : io unit :=
  fun d => (Ok tt, {| files := f (files d); journal := journal d |}).

Definition getFiles : io (gmap string FileData) := fun d => (Ok (files d), d).

End Fs.

Notation "x <-- m ;;; k" := (Fs.bind m (fun x => k))
  (at level 100, m at next level, right associativity, only parsing).
Notation "m ;;; k" := (Fs.bind m (fun _ => k))
  (at level 100, right associativity, only parsing).

(** The calls of [fs/promises] the code makes.  A path that is missing makes
    [unlink] and [readFile] throw; failures of the medium itself (a full
    disk, a permission denied) are not part of the model. *)
Module FsPromises.
Import Fs.

(** [unlink(path)] *)
Definition unlink (path : string) : io unit :=
  record (CallUnlink path) ;;;
  fs <-- getFiles ;;;
  match fs !! path with
  | Some _ => setFiles (delete path)
  | None => throw (ENOENT path)
  end.

(** [readFile(path)] *)
Definition readFile (path : string) : io FileData :=
  record (CallReadFile path) ;;;
  fs <-- getFiles ;;;
  match fs !! path with
  | Some d => ret d
  | None => throw (ENOENT path)
  end.

(** [writeFile(path, data)] *)
Definition writeFile (path : string) (data : FileData) : io unit :=
  record (CallWriteFile path data) ;;;
  setFiles (insert path data).

(** [stat(path)], used only as an existence test: [true] when it resolves. *)
Definition stat (path : string) (d : Disk) : bool :=
  bool_decide (is_Some (files d !! path)).

End FsPromises.

(** ** src/lib/audioReencode.ts *)

Module AudioReencode.
Import Fs FsPromises.

(** What the ffmpeg encoder subprocess did: it wrote the whole output, or
    it failed, possibly leaving a partial output file behind. *)
Inductive EncoderOutcome : Type :=
| Encoded (out : list Byte.byte)
| EncoderFailed (partial : option (list Byte.byte)).

(** [reencodeMp3ToCbr]: ffmpeg reads [inputPath] and writes [outputPath]
    ([-y]: overwriting); it fails when the input is missing. *)
Definition reencodeMp3ToCbr (ffmpeg : EncoderOutcome)
    (inputPath outputPath : string) (bitrate sampleRate : Z) : io unit :=
  record (CallEncode inputPath outputPath) ;;;
  fs <-- getFiles ;;;
  match fs !! inputPath, ffmpeg with
  | Some _, Encoded out => setFiles (insert outputPath (Raw out))
  | Some _, EncoderFailed (Some part) =>
      setFiles (insert outputPath (Raw part)) ;;;
      throw (ToolError "ffmpeg")
  | _, _ => throw (ToolError "ffmpeg")
  end.

Definition tempPath (filePath : Path.ParsedPath) : string :=
  Path.join (Path.dir filePath)
            (Path.name filePath +:+ "-cbr" +:+ Path.ext filePath).

(** [replaceWithCbrMp3] *)
Definition replaceWithCbrMp3 (ffmpeg : EncoderOutcome)
    (filePath : Path.ParsedPath) (bitrate sampleRate : Z) : io unit :=
  let tempPath := tempPath filePath in
  reencodeMp3ToCbr ffmpeg (Path.format filePath) tempPath bitrate sampleRate ;;;
  unlink (Path.format filePath) ;;;
  bytes <-- readFile tempPath ;;;
  writeFile (Path.format filePath) bytes ;;;
  unlink tempPath.

End AudioReencode.

(** [generateAndSavePeaks] of peaks.ts; [gen] is the awaited result of
    [generatePeaks(audioFilePath)] and the function returns the path of the
    JSON file. *)
Definition generateAndSavePeaks (gen : result PeaksData)
    (audioFilePath : Path.ParsedPath) : Fs.io string :=
  match gen with
  | Ok peaksData =>
      let jsonPath :=
        Path.join (Path.dir audioFilePath) (Path.name audioFilePath +:+ ".json") in
      FsPromises.writeFile jsonPath (Fs.PeaksJson peaksData) ;;;
      Fs.ret jsonPath
  | Err e => Fs.throw e
  end.

(** ** The HTTP routes *)

Module Http.

(** [session?.user?.id]: a session may lack a user id. *)
Record Session : Type := mkSession { user_id : option string }.

Inductive Body : Type :=
| Text (msg : string)
| JsonError (msg : string)          (* { error: msg } *)
| JsonUploaded (id : string)        (* { success: true, id } *)
| FileBody (d : Fs.FileData)        (* the content of a file, as it is *)
| Utf8Decoded (bytes : list Byte.byte).   (* the text the bytes decode to *)

(** The string [readFile(path, 'utf-8')] resolves to, as a response body.
    The JSON text that [JSON.stringify] wrote decodes to itself; other bytes
    go through the decoder, which replaces what is not UTF-8. *)
Definition utf8 (d : Fs.FileData) : Body :=
  match d with
  | Fs.PeaksJson pd => FileBody (Fs.PeaksJson pd)
  | Fs.Raw bytes => Utf8Decoded bytes
  end.

Record Response : Type := mkResponse {
  status : Z;
  body : Body;
  cacheControl : option string
}.

Definition respond (st : Z) (b : Body) : Response :=
  {| status := st; body := b; cacheControl := None |}.

(** A row of the [audio] table, with the columns the two routes touch. *)
Record Audio : Type := mkAudio {
  id : string;
  name : string;
  description : option string;
  originalFileName : string;
  filePath : Path.ParsedPath;   (* relative to the uploads directory; the
                                   upload route stores a bare file name *)
  createdById : string;
  isPublic : bool
}.

Inductive LogLine : Type :=
| Warn (msg : string)
| Error (msg : string).

(** Everything a handler can read or change. *)
Record World : Type := mkWorld {
  disk : Fs.Disk;
  db : gmap string Audio;
  console : list LogLine
}.

Definition withDisk (w : World) (d : Fs.Disk) : World :=
  {| disk := d; db := db w; console := console w |}.

Definition log (l : LogLine) (w : World) : World :=
  {| disk := disk w; db := db w; console := console w ++ [l] |}.

End Http.

(** *** src/app/api/audio/[audioId]/peaks/route.ts *)

Module PeaksRoute.
Import Http.

Section Handler.
(** [path.join(process.cwd(), 'data', 'uploads')] *)
Variable uploads : string.
(** [env.REQUIRE_AUTH_FOR_PUBLIC_CONTENT] *)
Variable REQUIRE_AUTH_FOR_PUBLIC_CONTENT : bool.

(** [session?.user?.id === audio.createdById] *)
Definition isCreator (session : option Session) (audio : Audio) : bool :=
  match session with
  | Some s =>
      match user_id s with
      | Some uid => String.eqb uid (createdById audio)
      | None => false
      end
  | None => false
  end.

(** The part of [GET] after the permission checks: find or generate the
    peaks file and return it.  The peaks file is looked up under the base
    name of the stored path, directly in the uploads directory; the audio
    file under the whole stored path. *)
Definition servePeaks (gen : result PeaksData) (audio : Audio) (w : World)
  : Response * World :=
  let audioFileName := filePath audio in
  let peaksFileName := Path.name audioFileName +:+ ".json" in
  let fullPath := Path.join uploads peaksFileName in
  let audioFullPath := Path.resolve uploads audioFileName in
  let read (w : World) : Response * World :=
    match FsPromises.readFile fullPath (disk w) with
    | (Ok fileBuffer, d) =>
        ({| status := 200; body := utf8 fileBuffer;
            cacheControl := Some "public, max-age=31536000, immutable" |},
         withDisk w d)
    | (Err _, d) =>
        (respond 500 (Text "Internal Server Error"),
         log (Error "Error serving peaks file:") (withDisk w d))
    end in
  if FsPromises.stat fullPath (disk w) then read w
  else if FsPromises.stat (Path.format audioFullPath) (disk w) then
    match generateAndSavePeaks gen audioFullPath (disk w) with
    | (Ok _, d) => read (withDisk w d)
    | (Err _, d) =>
        (respond 500 (Text "Peak generation failed"),
         log (Error "On-the-fly peak generation failed:") (withDisk w d))
    end
  else (respond 404 (Text "Audio file not found on disk"), w).

(** [GET]: [audioId] is the route parameter, [session] the result of
    [auth()], [gen] the outcome of peak generation should it be needed. *)
Definition GET (audioId : string) (session : option Session)
    (gen : result PeaksData) (w : World) : Response * World :=
  match db w !! audioId with
  | None => (respond 404 (Text "Audio not found"), w)
  | Some audio =>
      let isCreator := isCreator session audio in
      let hasAccess := isPublic audio || isCreator in
      if REQUIRE_AUTH_FOR_PUBLIC_CONTENT && negb (bool_decide (is_Some session))
      then (respond 401 (Text "Authentication required"), w)
      else if negb hasAccess
      then (respond 403 (Text "Forbidden"), w)
      else servePeaks gen audio w
  end.

End Handler.

End PeaksRoute.

(** *** src/app/api/upload/route.ts *)

Module UploadRoute.
Import Http.

(** The [File] of the multipart form; [extname] is [path.extname(file.name)]. *)
Record File : Type := mkFile {
  file_name : string;
  extname : string;
  size : Z;
  bytes : list Byte.byte
}.

(** [formData.get(...)] of the three fields. *)
Record FormData : Type := mkForm {
  form_name : option string;
  form_description : option string;
  form_file : option File
}.

Definition maxSize : Z := 50 * 1024 * 1024.

(** A string is truthy when it is not empty. *)
Definition truthy (s : option string) : option string :=
  match s with
  | Some v => if String.eqb v "" then None else Some v
  | None => None
  end.

Section Handler.
Variable uploads : string.
(** The value the schema gives the [isPublic] column of a new row. *)
Variable isPublicDefault : bool.

(** [db.audio.create]: the primary key must be new. *)
Definition db_audio_create (row : Audio) (w : World) : result Audio * World :=
  match db w !! id row with
  | Some _ => (Err (ToolError "prisma"), w)
  | None =>
      (Ok row, {| disk := disk w; db := <[id row := row]> (db w);
                  console := console w |})
  end.

(** [try { await step } catch (e) { console.warn(msg, e) }] *)
Definition tryWarn (step : Fs.io unit) (msg : string) (w : World) : World :=
  match step (disk w) with
  | (Ok _, d) => withDisk w d
  | (Err _, d) => log (Warn msg) (withDisk w d)
  end.

(** [POST]: [session] is the result of [auth()], [newId] of [uuidv4()];
    [ffmpeg] and [gen] are the outcomes of the two subprocess steps. *)
Definition POST (session : option Session) (formData : FormData)
    (newId : string) (ffmpeg : AudioReencode.EncoderOutcome)
    (gen : result PeaksData) (w : World) : Response * World :=
  match truthy (session ≫= user_id) with
  | None => (respond 401 (JsonError "Unauthorized"), w)
  | Some userId =>
      match truthy (form_name formData), form_file formData with
      | Some name, Some file =>
          if maxSize <? size file
          then (respond 400 (JsonError "File size must be less than 50MB"), w)
          else
            let fileExtension := Str.toLowerCase (extname file) in
            if negb (String.eqb fileExtension ".mp3")
            then (respond 400 (JsonError "Only .mp3 files are allowed"), w)
            else
              let outFileName := Path.mkPath "" newId fileExtension in
              let filePath := Path.mkPath uploads newId fileExtension in
              let w := withDisk w
                (snd (FsPromises.writeFile (Path.format filePath)
                                           (Fs.Raw (bytes file)) (disk w))) in
              let w := tryWarn
                (AudioReencode.replaceWithCbrMp3 ffmpeg filePath 128 44100)
                "CBR re-encode failed (non-fatal):" w in
              let w := tryWarn
                (Fs.bind (generateAndSavePeaks gen filePath) (fun _ => Fs.ret tt))
                "Peak generation failed (non-fatal):" w in
              match db_audio_create
                      {| id := newId; name := name;
                         description := form_description formData;
                         originalFileName := file_name file;
                         filePath := outFileName;
                         createdById := userId;
                         isPublic := isPublicDefault |} w with
              | (Ok audio, w) => (respond 200 (JsonUploaded (id audio)), w)
              | (Err _, w) =>
                  (respond 500 (JsonError "Upload failed"),
                   log (Error "File upload error:") w)
              end
      | _, _ => (respond 400 (JsonError "Name and file are required"), w)
      end
  end.

End Handler.

End UploadRoute.

(** ** The service worker (sw.js) *)

Module ServiceWorker.

Definition CACHE_NAME : string := "audio-marker-v1".
Definition AUDIO_CACHE_NAME : string := "audio-marker-audio-v1".
Definition STATIC_CACHE_NAME : string := "audio-marker-static-v1".

(** [new URL(request.url)], with the fields the worker reads. *)
Record URL : Type := mkURL {
  href : string;
  protocol : string;
  pathname : string
}.

Record Request : Type := mkRequest {
  method : string;
  url : URL;
  accept : option string     (* request.headers.get('accept') *)
}.

Record Response : Type := mkResponse {
  status : Z;
  payload : string
}.

(** One cache partition.  [Cache.match] and [Cache.put] compare the URLs of
    requests with the fragment left out, and [put] replaces what matches: a
    partition holds one response for each URL without its fragment. *)
Abbreviation Cache := (gmap string Response).

(** [caches]: the partitions by name, in creation order. *)
Definition CacheStorage : Type := list (string * Cache).

(** [AUDIO_API_REGEX = /^\/api\/audio\/[^\/]+\/file$/] *)
Definition matchesAudioApi (path : string) : bool :=
  match Str.stripPrefix "/api/audio/" path with
  | Some rest =>
      match String.index 0 "/" rest with
      | Some n =>
          (0 <? n)%nat &&
          String.eqb (String.substring n (String.length rest - n) rest) "/file"
      | None => false
      end
  | None => false
  end.

Definition audioExtensions : list string :=
  [".mp3"; ".wav"; ".ogg"; ".m4a"; ".aac"; ".flac"; ".webm"].

Definition staticExtensions : list string :=
  [".css"; ".js"; ".png"; ".jpg"; ".jpeg"; ".svg"; ".ico"; ".woff"; ".woff2"; ".ttf"].

Definition isAudioRequest (request : Request) : bool :=
  let pathname := Str.toLowerCase (pathname (url request)) in
  if matchesAudioApi pathname then true
  else if existsb (Str.endsWith pathname) audioExtensions then true
  else
    match accept request with
    | Some contentType =>
        if String.eqb contentType "" then false
        else Str.includes contentType "audio/"
    | None => false
    end.

Definition isStaticAsset (request : Request) : bool :=
  let pathname := Str.toLowerCase (pathname (url request)) in
  existsb (Str.endsWith pathname) staticExtensions.

Definition isApiRequest (request : Request) : bool :=
  let p := pathname (url request) in
  if matchesAudioApi p then false
  else if Str.startsWith p "/api/auth/" then false
  else Str.startsWith p "/api/".

Definition isAuthRequest (request : Request) : bool :=
  Str.startsWith (pathname (url request)) "/api/auth/".

(** The key a request is stored and looked up under. *)
Definition cacheKey (request : Request) : string :=
  Str.withoutFragment (href (url request)).

(** [caches.open(name)]: the partition is created when it is missing. *)
Definition open (name : string) (caches : CacheStorage) : CacheStorage :=
  if existsb (fun c => String.eqb (fst c) name) caches
  then caches
  else caches ++ [(name, ∅)].

(** The partition [name], once opened. *)
Definition partition (name : string) (caches : CacheStorage) : Cache :=
  match find (fun c => String.eqb (fst c) name) caches with
  | Some c => snd c
  | None => ∅
  end.

(** [caches.open(name).then(cache => cache.put(request, response))] *)
Definition put (name : string) (request : Request) (response : Response)
    (caches : CacheStorage) : CacheStorage :=
  map (fun c =>
         if String.eqb (fst c) name
         then (fst c, <[cacheKey request := response]> (snd c))
         else c)
      (open name caches).

(** [cache.match(request)] in one partition *)
Definition matchIn (name : string) (request : Request) (caches : CacheStorage)
  : option Response :=
  partition name caches !! cacheKey request.

(** [caches.match(request)]: the first hit over all partitions *)
Fixpoint matchAny (request : Request) (caches : CacheStorage) : option Response :=
  match caches with
  | [] => None
  | c :: rest =>
      match snd c !! cacheKey request with
      | Some r => Some r
      | None => matchAny request rest
      end
  end.

(** The partitions created before the one named [name]: all of them when
    there is none of that name. *)
Fixpoint olderThan (name : string) (caches : CacheStorage) : CacheStorage :=
  match caches with
  | [] => []
  | c :: rest => if String.eqb (fst c) name then [] else c :: olderThan name rest
  end.

(** Where the response handed to the page came from. *)
Inductive Source : Type :=
| FromNetwork
| FromCache
| Synthetic.

(** What the fetch listener does with one request. *)
Inductive Outcome : Type :=
| NotIntercepted                       (* the listener returns; the browser fetches *)
| Responded (source : Source) (response : Response)
| Rejected.                            (* the promise given to respondWith rejects *)

(** [networkResponse && networkResponse.status === 200] *)
Definition cacheable (r : Response) : bool := (status r =? 200).

(** [event.respondWith(fetch(request))] *)
Definition live (network : option Response) : Outcome :=
  match network with
  | Some r => Responded FromNetwork r
  | None => Rejected
  end.

(** Network first, falling back on [caches.match], filling [CACHE_NAME]. *)
Definition networkFirst (request : Request) (network : option Response)
    (caches : CacheStorage) : Outcome * CacheStorage :=
  match network with
  | Some networkResponse =>
      (Responded FromNetwork networkResponse,
       if cacheable networkResponse
       then put CACHE_NAME request networkResponse caches
       else caches)
  | None =>
      match matchAny request caches with
      | Some cachedResponse => (Responded FromCache cachedResponse, caches)
      | None => (Responded Synthetic {| status := 503; payload := "Network error" |},
                 caches)
      end
  end.

(** The fetch listener.  [IS_PRODUCTION] is the flag read at start-up,
    [network] what [fetch(request)] resolves to ([None]: it rejects). *)
Definition onFetch (IS_PRODUCTION : bool) (request : Request)
    (network : option Response) (caches : CacheStorage)
  : Outcome * CacheStorage :=
  if negb (String.eqb (method request) "GET") then (NotIntercepted, caches)
  else if negb (Str.startsWith (protocol (url request)) "http")
  then (NotIntercepted, caches)
  else if negb IS_PRODUCTION then (live network, caches)
  else if isAudioRequest request then
    let caches := open AUDIO_CACHE_NAME caches in
    match matchIn AUDIO_CACHE_NAME request caches with
    | Some cachedResponse => (Responded FromCache cachedResponse, caches)
    | None =>
        match network with
        | Some networkResponse =>
            (Responded FromNetwork networkResponse,
             if cacheable networkResponse
             then put AUDIO_CACHE_NAME request networkResponse caches
             else caches)
        | None => (Rejected, caches)
        end
    end
  else if isStaticAsset request then
    match matchAny request caches with
    | Some cachedResponse => (Responded FromCache cachedResponse, caches)
    | None =>
        match network with
        | Some networkResponse =>
            (Responded FromNetwork networkResponse,
             if cacheable networkResponse
             then put STATIC_CACHE_NAME request networkResponse caches
             else caches)
        | None => (Rejected, caches)
        end
    end
  else if isAuthRequest request then (live network, caches)
  else if isApiRequest request then networkFirst request network caches
  else networkFirst request network caches.

End ServiceWorker.

(** ** What the specification says, in its own words *)

Module Spec.

(** [v] is the finite number [q]. *)
Definition is_value (v : number) (q : Q) : Prop :=
  match v with
  | Fin x => (x == q)%Q
  | _ => False
  end.

(** "Every peak value lies in [0, 1]". *)
Definition in_unit_interval (v : number) : Prop :=
  match v with
  | Fin x => (0 <= x)%Q /\ (x <= 1)%Q
  | _ => False
  end.

(** "An integer multiple of 1/10000". *)
Definition multiple_of_1e4 (v : number) : Prop :=
  exists k : Z, is_value v (k # 10000).

(** The order of two numbers; nothing compares with [NaN]. *)
Definition le (a b : number) : Prop :=
  match a, b with
  | Fin x, Fin y => (x <= y)%Q
  | Fin _, Inf negative => negative = false
  | Inf negative, Fin _ => negative = true
  | Inf s, Inf t => s = true \/ t = false
  | _, _ => False
  end.

(** The same number. *)
Definition same (a b : number) : Prop :=
  match a, b with
  | Fin x, Fin y => (x == y)%Q
  | Inf s, Inf t => s = t
  | _, _ => False
  end.

(** "The maximum absolute sample value in the window [lo, hi), 0 if the
    window is empty": [m] bounds the absolute value of every sample of the
    window that is a number, and is one of them or 0. *)
Definition window_max (samples : list number) (lo hi : Z) (m : number) : Prop :=
  (forall j s, lo <= j < hi -> nth_error samples (Z.to_nat j) = Some s ->
     s <> NaN -> le (Math_abs s) m) /\
  ((exists j s, lo <= j < hi /\ nth_error samples (Z.to_nat j) = Some s /\
      s <> NaN /\ same m (Math_abs s)) \/
   same m (Fin 0)).

(** "Every decoded sample has absolute value at most [c]"; a sample that is
    [NaN] has none. *)
Definition abs_at_most (c : Q) (s : number) : Prop :=
  match s with
  | Fin q => (Qabs q <= c)%Q
  | Inf _ => False
  | NaN => True
  end.

(** "Round each bucket value to 4 decimal places". *)
Definition round4 (x : Q) : Q :=
  (inject_Z (Qfloor (x * 10000 + (1 # 2))) / 10000)%Q.

(** The same on a number that need not be finite. *)
Definition round4_number (m : number) : number :=
  match m with
  | Fin q => Fin (round4 q)
  | other => other
  end.

(** "samplesPerBucket = max(1, floor(totalSampleCount / totalPeaks))" *)
Definition samplesPerBucket (totalSampleCount totalPeaks : Z) : Z :=
  Z.max 1 (totalSampleCount / totalPeaks).

(** "totalPeaks = ceil(duration * peaksPerSecond)", in exact arithmetic. *)
Definition totalPeaks (d : Q) (r : Z) : Z := Qceiling (d * inject_Z r).

(** "For each pair, take max(|min|, |max|)": the larger of two magnitudes. *)
Definition larger (a b : Q) : Q := if Qle_bool a b then b else a.

(** "The requester is the owning identity". *)
Definition isOwner (session : option Http.Session) (audio : Http.Audio) : Prop :=
  exists s, session = Some s /\ Http.user_id s = Some (Http.createdById audio).

(** "An upload request that passes validation": an authenticated user, a
    name, a file of at most 50 MB whose extension is .mp3. *)
Definition passesValidation (session : option Http.Session)
    (formData : UploadRoute.FormData)
    (userId name : string) (file : UploadRoute.File) : Prop :=
  UploadRoute.truthy (session ≫= Http.user_id) = Some userId /\
  UploadRoute.truthy (UploadRoute.form_name formData) = Some name /\
  UploadRoute.form_file formData = Some file /\
  UploadRoute.size file <= UploadRoute.maxSize /\
  Str.toLowerCase (UploadRoute.extname file) = ".mp3".

End Spec.

(** ** The service worker: registration and life-cycle events *)

Module ServiceWorkerEvents.
Import ServiceWorker.

(** ServiceWorkerRegistration.tsx: the [env] parameter of the URL the worker
    is registered under, [`/sw.js?env=${isDev ? 'development' : 'production'}`]. *)
Definition registrationEnv (NODE_ENV : string) : string :=
  let isDev := String.eqb NODE_ENV "development" in
  if isDev then "development" else "production".

(** The start of sw.js: [env] is [url.searchParams.get('env')], an error when
    [new URL(self.location.href)] throws.  The result is [IS_PRODUCTION]. *)
Definition startUp (env : result (option string)) : bool :=
  match env with
  | Ok (Some e) => String.eqb e "production"
  | Ok None => false
  | Err _ => true
  end.

Definition STATIC_ASSETS : list string :=
  ["/"; "/favicon.ico"; "/audio-marker-logo.svg"; "/manifest.json"].

(** The request [cache.addAll] makes for a path of the manifest: a GET of the
    path resolved against the origin [protocol//host] of the worker. *)
Definition assetRequest (protocol host : string) (asset : string) : Request :=
  {| method := "GET";
     url := {| href := protocol +:+ "//" +:+ host +:+ asset;
               protocol := protocol;
               pathname := asset |};
     accept := None |}.

(** [response.ok] *)
Definition ok (r : Response) : bool := (200 <=? status r) && (status r <=? 299).

(** [cache.addAll(requests)]: every request is fetched; the responses are
    stored when all of them arrived with an ok status other than 206,
    otherwise the promise rejects and nothing is stored. *)
Definition addAll (name : string) (requests : list Request)
    (fetch : Request -> option Response) (caches : CacheStorage)
  : option CacheStorage :=
  if forallb (fun rq =>
                match fetch rq with
                | Some r => ok r && negb (status r =? 206)
                | None => false
                end)
             requests
  then Some (fold_left
               (fun cs rq =>
                  match fetch rq with
                  | Some r => put name rq r cs
                  | None => cs
                  end)
               requests caches)
  else None.

(** The install listener; the boolean tells whether the promise handed to
    [event.waitUntil] was fulfilled. *)
Definition onInstall (IS_PRODUCTION : bool) (protocol host : string)
    (fetch : Request -> option Response) (caches : CacheStorage)
  : bool * CacheStorage :=
  if IS_PRODUCTION then
    let caches := open STATIC_CACHE_NAME caches in
    match addAll STATIC_CACHE_NAME
            (map (assetRequest protocol host) STATIC_ASSETS) fetch caches with
    | Some caches' => (true, caches')
    | None => (false, caches)
    end
  else (true, caches).

(** The activate listener: every partition whose name is not one of the
    three current names is deleted. *)
Definition onActivate (caches : CacheStorage) : CacheStorage :=
  List.filter
    (fun c =>
       negb (negb (String.eqb (fst c) CACHE_NAME) &&
             negb (String.eqb (fst c) AUDIO_CACHE_NAME) &&
             negb (String.eqb (fst c) STATIC_CACHE_NAME)))
    caches.

(** The message listener; [type] is [event.data.type] when there is one.
    [SKIP_WAITING] does not touch the caches, [CLEAR_CACHE] deletes every
    partition. *)
Definition onMessage (type : option string) (caches : CacheStorage)
  : CacheStorage :=
  match type with
  | Some t => if String.eqb t "CLEAR_CACHE" then [] else caches
  | None => caches
  end.

End ServiceWorkerEvents.

(** * Properties *)

(** ** Loops and arithmetic *)

Lemma in_range (lo hi j : Z) :
  0 <= lo -> In j (range lo hi) <-> lo <= j < hi.
Proof.
  intros Hlo. unfold range. rewrite in_map_iff. split.
  - intros (k & <- & Hk). apply in_seq in Hk. lia.
  - intros Hj. exists (Z.to_nat j). split; [lia|]. apply in_seq. lia.
Qed.

Lemma length_range (n : Z) : length (range 0 n) = Z.to_nat n.
Proof. unfold range. rewrite List.length_map, List.length_seq. f_equal. lia. Qed.

Lemma nth_error_range (n i : Z) :
  0 <= i < n -> nth_error (range 0 n) (Z.to_nat i) = Some i.
Proof.
  intros Hi. unfold range. rewrite nth_error_map, nth_error_seq.
  replace (Z.to_nat i <? Z.to_nat (n - 0))%nat with true
    by (symmetry; apply Nat.ltb_lt; lia).
  simpl. f_equal. lia.
Qed.

Lemma range_empty (lo hi : Z) : hi <= lo -> range lo hi = [].
Proof. intros H. unfold range. replace (Z.to_nat (hi - lo)) with 0%nat by lia. reflexivity. Qed.

Lemma round4_multiple (m : Q) :
  exists k : Z, (Spec.round4 m == k # 10000)%Q.
Proof.
  exists (Qfloor (m * 10000 + (1 # 2))). unfold Spec.round4.
  generalize (Qfloor (m * 10000 + (1 # 2))). intros f.
  unfold Qdiv, Qmult, Qinv, inject_Z, Qeq. simpl. lia.
Qed.

Lemma round4_nonneg (m : Q) : (0 <= m)%Q -> (0 <= Spec.round4 m)%Q.
Proof.
  intros Hm. unfold Spec.round4.
  assert (H0 : 0 <= Qfloor (m * 10000 + (1 # 2))).
  { change 0 with (Qfloor (inject_Z 0)). apply Qfloor_resp_le.
    change (inject_Z 0) with 0%Q.
    apply Qle_trans with (m * 10000)%Q.
    - apply Qmult_le_0_compat; [exact Hm | discriminate].
    - rewrite <- (Qplus_0_r (m * 10000)) at 1. apply Qplus_le_r. discriminate. }
  revert H0. generalize (Qfloor (m * 10000 + (1 # 2))). intros f H0.
  unfold Qdiv, Qmult, Qinv, inject_Z, Qle. simpl. lia.
Qed.

Lemma round4_le_1 (m : Q) : (m <= 1)%Q -> (Spec.round4 m <= 1)%Q.
Proof.
  intros Hm. unfold Spec.round4.
  assert (H1 : Qfloor (m * 10000 + (1 # 2)) <= 10000).
  { change 10000 with (Qfloor (10000 + (1 # 2))). apply Qfloor_resp_le.
    apply Qplus_le_l.
    apply Qle_trans with (1 * 10000)%Q; [|discriminate].
    apply Qmult_le_compat_r; [exact Hm | discriminate]. }
  revert H1. generalize (Qfloor (m * 10000 + (1 # 2))). intros f H1.
  unfold Qdiv, Qmult, Qinv, inject_Z, Qle. simpl. lia.
Qed.

(** ** Numbers in order *)

Lemma le_number_r (a b : number) : Spec.le a b -> b <> NaN.
Proof. destruct a as [x|s|], b as [y|t|]; simpl; intros H; congruence || tauto. Qed.

Lemma le_refl (a : number) : a <> NaN -> Spec.le a a.
Proof.
  destruct a as [x|s|]; simpl; intros H;
    [apply Qle_refl | destruct s; auto | congruence].
Qed.

Lemma le_trans (a b c : number) : Spec.le a b -> Spec.le b c -> Spec.le a c.
Proof.
  destruct a as [x|s|], b as [y|t|], c as [z|u|]; simpl; intros H1 H2;
    try tauto; try (eapply Qle_trans; eassumption); intuition congruence.
Qed.

Lemma same_refl (a : number) : a <> NaN -> Spec.same a a.
Proof.
  destruct a as [x|s|]; simpl; intros H; [apply Qeq_refl | reflexivity | congruence].
Qed.

(** [a > b] holds only when [b <= a]; when it does not hold between two
    numbers, [a <= b]. *)
Lemma gt_le (a b : number) : gt a b = true -> Spec.le b a.
Proof.
  destruct a as [x|[|]|], b as [y|[|]|]; simpl; try discriminate; auto.
  intros H. apply negb_true_iff in H. apply Qlt_le_weak, Qnot_le_lt.
  intros Hle. apply Qle_bool_iff in Hle. congruence.
Qed.

Lemma not_gt_le (a b : number) :
  a <> NaN -> b <> NaN -> gt a b = false -> Spec.le a b.
Proof.
  destruct a as [x|[|]|], b as [y|[|]|]; simpl; try discriminate; try congruence; auto.
  intros _ _ H. apply negb_false_iff in H. apply Qle_bool_iff. exact H.
Qed.

Lemma abs_number (s : number) : s <> NaN -> Spec.le (Fin 0) (Math_abs s).
Proof.
  destruct s as [q|t|]; simpl; intros H;
    [apply Qabs_nonneg | reflexivity | congruence].
Qed.

(** ** The raw-PCM inner loop *)

(** Inside the typed array a read gives the sample. *)
Lemma sample_in_bounds (samples : list number) (j : Z) :
  0 <= j < Z.of_nat (length samples) ->
  exists s,
    nth_error samples (Z.to_nat j) = Some s /\ PeaksFfmpeg.sample samples j = s.
Proof.
  intros Hj. unfold PeaksFfmpeg.sample.
  destruct (nth_error samples (Z.to_nat j)) as [s|] eqn:Hs; [eauto|].
  apply nth_error_None in Hs. lia.
Qed.

Lemma bucketMax_fold (samples : list number) (l : list Z) (a : number) :
  (forall j, In j l -> 0 <= j < Z.of_nat (length samples)) ->
  Spec.le (Fin 0) a ->
  exists b : number,
    fold_left
      (fun max j =>
         let abs := Math_abs (PeaksFfmpeg.sample samples j) in
         if gt abs max then abs else max) l a = b /\
    Spec.le a b /\
    (forall j s, In j l -> nth_error samples (Z.to_nat j) = Some s ->
       s <> NaN -> Spec.le (Math_abs s) b) /\
    (b = a \/
     exists j s, In j l /\ nth_error samples (Z.to_nat j) = Some s /\
       s <> NaN /\ b = Math_abs s).
Proof.
  revert a. induction l as [|j l IH]; intros a Hbound Ha.
  - exists a. simpl. split; [reflexivity|]. split.
    + apply le_refl. eapply le_number_r. exact Ha.
    + split; [intros j s [] | now left].
  - assert (Hl : forall j', In j' l -> 0 <= j' < Z.of_nat (length samples))
      by (intros j' Hj'; apply Hbound; now right).
    destruct (sample_in_bounds samples j) as (s & Hs & Hread);
      [apply Hbound; now left|].
    simpl. rewrite Hread.
    destruct (gt (Math_abs s) a) eqn:Hgt.
    + assert (Hnn : s <> NaN) by (intros ->; simpl in Hgt; discriminate).
      destruct (IH (Math_abs s) Hl (abs_number s Hnn)) as (b & Hf & Hab & Hall & Hex).
      exists b. split; [exact Hf|]. split; [|split].
      * eapply le_trans; [apply gt_le; exact Hgt | exact Hab].
      * intros j' s' [<-|Hin] Hs' Hn'; [|eauto].
        rewrite Hs in Hs'. injection Hs' as <-. exact Hab.
      * right. destruct Hex as [->|(j' & s' & Hin & Hs' & Hn' & ->)];
          [exists j, s | exists j', s']; simpl; auto.
    + destruct (IH a Hl Ha) as (b & Hf & Hab & Hall & Hex).
      exists b. split; [exact Hf|]. split; [exact Hab|]. split.
      * intros j' s' [<-|Hin] Hs' Hn'; [|eauto].
        rewrite Hs in Hs'. injection Hs' as <-.
        eapply le_trans; [|exact Hab]. apply not_gt_le; [| |exact Hgt].
        -- destruct s; simpl; congruence.
        -- eapply le_number_r. exact Ha.
      * destruct Hex as [->|(j' & s' & Hin & Hs' & Hn' & ->)]; [now left|].
        right. exists j', s'. simpl. auto.
Qed.

(** The inner loop never reads outside the array and returns the maximum
    magnitude of its window. *)
Lemma bucketMax_spec (samples : list number) (lo hi : Z) :
  0 <= lo -> hi <= Z.of_nat (length samples) ->
  Spec.window_max samples lo hi (PeaksFfmpeg.bucketMax samples lo hi).
Proof.
  intros Hlo Hhi.
  destruct (bucketMax_fold samples (range lo hi) (Fin 0))
    as (b & Hf & H0 & Hall & Hex).
  { intros j Hj. apply in_range in Hj; lia. }
  { apply Qle_refl. }
  replace (PeaksFfmpeg.bucketMax samples lo hi) with b by (symmetry; exact Hf).
  split.
  - intros j s Hj. apply Hall, in_range; assumption.
  - destruct Hex as [->|(j & s & Hin & Hs & Hn & ->)].
    + right. apply Qeq_refl.
    + left. exists j, s. apply in_range in Hin; [|exact Hlo].
      repeat split; try assumption; try lia.
      apply same_refl. destruct s; simpl; congruence.
Qed.

(** The value stored for a maximum is its rounding to 4 decimals. *)
Lemma round_div_number (m : number) :
  div (Math_round (mul m (Fin 10000%Q))) (Fin 10000%Q) = Spec.round4_number m.
Proof. destruct m as [q|[|]|]; reflexivity. Qed.

Lemma peakAt_spec (samples : list number) (spp i : Z) :
  0 <= i -> 0 <= spp ->
  exists m : number,
    Spec.window_max samples (i * spp)
      (Z.min (i * spp + spp) (Z.of_nat (length samples))) m /\
    PeaksFfmpeg.peakAt samples spp i = Spec.round4_number m.
Proof.
  intros Hi Hs. unfold PeaksFfmpeg.peakAt. eexists. split.
  - apply bucketMax_spec; lia.
  - cbv zeta. apply round_div_number.
Qed.

(** A maximum is a number that is not negative. *)
Lemma window_max_nonneg (samples : list number) (lo hi : Z) (m : number) :
  Spec.window_max samples lo hi m ->
  match m with
  | Fin q => (0 <= q)%Q
  | Inf negative => negative = false
  | NaN => False
  end.
Proof.
  intros [_ [(j & s & _ & _ & Hn & Hm)|Hm]].
  - destruct m as [q|t|], s as [x|u|]; simpl in *; try tauto; try congruence.
    rewrite Hm. apply Qabs_nonneg.
  - destruct m as [q|t|]; simpl in *; try tauto. rewrite Hm. apply Qle_refl.
Qed.

(** ** The raw-PCM back end *)


(** Rounding to a double keeps the sign. *)
Lemma binary_round_aux_sign (prec emax : Z) (sx : bool) (mx ex : Z) lx :
  match SpecFloat.binary_round_aux prec emax sx mx ex lx with
  | SpecFloat.S754_zero s | SpecFloat.S754_infinity s
  | SpecFloat.S754_finite s _ _ => s = sx
  | SpecFloat.S754_nan => True
  end.
Proof.
  unfold SpecFloat.binary_round_aux.
  destruct (SpecFloat.shr_fexp prec emax mx ex lx) as [mrs' e'].
  destruct (SpecFloat.shr_fexp prec emax _ e' SpecFloat.loc_Exact) as [mrs'' e''].
  destruct (SpecFloat.shr_m mrs''); [reflexivity | | exact I].
  destruct (Z.leb e'' (Z.sub emax prec)); reflexivity.
Qed.

Lemma pow2_pos (e : Z) : (0 < pow2 e)%Q.
Proof.
  destruct e as [|p|p]; simpl; [reflexivity | | reflexivity].
  change (inject_Z 0 < inject_Z (Z.pow_pos 2 p))%Q. rewrite <- Zlt_Qlt.
  change (Z.pow_pos 2 p) with (2 ^ Z.pos p). apply Z.pow_pos_nonneg; lia.
Qed.

Lemma double_nonneg (q p : Q) : (0 <= q)%Q -> double q = Fin p -> (0 <= p)%Q.
Proof.
  intros Hq. unfold double. destruct (Qnum q) as [|n|n] eqn:Hn.
  - intros [= <-]. apply Qle_refl.
  - unfold SpecFloat.SFdiv.
    destruct (SpecFloat.SFdiv_core_binary _ _ _ _ _ _) as [[mz ez] lz].
    change (xorb false false) with false.
    pose proof (binary_round_aux_sign 53 1024 false mz ez lz) as Hs.
    destruct (SpecFloat.binary_round_aux 53 1024 false mz ez lz) as [s|s| |s m e];
      simpl; try discriminate.
    + intros [= <-]. apply Qle_refl.
    + subst s. intros [= <-]. apply Qmult_le_0_compat; [discriminate|].
      apply Qlt_le_weak, pow2_pos.
  - exfalso. unfold Qle in Hq. simpl in Hq. lia.
Qed.

Lemma array_length_valid (x : number) (n : Z) :
  array_length x = Some n ->
  x = Fin (inject_Z n) /\ 0 <= n <= MAX_ARRAY_LENGTH \/
  exists q, x = Fin q /\ (q == inject_Z n)%Q /\ 0 <= n <= MAX_ARRAY_LENGTH.
Proof.
  unfold array_length. destruct x as [q|s|]; try discriminate.
  destruct (Qeq_bool q (inject_Z (Qfloor q))) eqn:Hint; [|discriminate].
  destruct (valid_array_length (Qfloor q)) eqn:Hv; [|discriminate].
  simpl. intros [= <-]. right. exists q. split; [reflexivity|].
  split; [apply Qeq_bool_iff; exact Hint|].
  unfold valid_array_length in Hv. apply andb_prop in Hv as [H0 H1].
  apply Z.leb_le in H0, H1. lia.
Qed.

Lemma array_length_bounds (x : number) (n : Z) :
  array_length x = Some n -> 0 <= n <= MAX_ARRAY_LENGTH.
Proof.
  intros H. destruct (array_length_valid x n H) as [[_ Hn]|(q & _ & _ & Hn)]; exact Hn.
Qed.

Lemma array_length_integer (n : Z) :
  0 <= n <= MAX_ARRAY_LENGTH -> array_length (Fin (inject_Z n)) = Some n.
Proof.
  intros Hn. unfold array_length. rewrite Qfloor_Z.
  replace (Qeq_bool (inject_Z n) (inject_Z n)) with true
    by (symmetry; apply Qeq_bool_iff; reflexivity).
  unfold valid_array_length.
  replace (0 <=? n) with true by (symmetry; apply Z.leb_le; lia).
  replace (n <=? MAX_ARRAY_LENGTH) with true by (symmetry; apply Z.leb_le; lia).
  reflexivity.
Qed.

(** For a duration that is not negative, neither is the bucket count. *)
Lemma mul64_nonneg (x y p : Q) :
  (0 <= x)%Q -> (0 <= y)%Q -> mul64 (Fin x) (Fin y) = Fin p -> (0 <= p)%Q.
Proof.
  intros Hx Hy. unfold mul64.
  destruct (double x) as [x'|s|] eqn:Ex; destruct (double y) as [y'|t|] eqn:Ey;
    simpl; try discriminate.
  - apply double_nonneg. apply Qmult_le_0_compat;
      [exact (double_nonneg x x' Hx Ex) | exact (double_nonneg y y' Hy Ey)].
  - destruct (Qzero_bool x'); discriminate.
  - destruct (Qzero_bool y'); discriminate.
Qed.

Lemma totalPeaks_nonneg (d : Q) (n : Z) :
  (0 <= d)%Q -> PeaksFfmpeg.totalPeaks (Fin d) = Fin (inject_Z n) -> 0 <= n.
Proof.
  intros Hd. unfold PeaksFfmpeg.totalPeaks.
  assert (Hr : (0 <= inject_Z PeaksFfmpeg.PEAKS_PER_SECOND)%Q).
  { change (inject_Z 0 <= inject_Z 100)%Q. rewrite <- Zle_Qle. lia. }
  destruct (mul64 (Fin d) (Fin (inject_Z PeaksFfmpeg.PEAKS_PER_SECOND)))
    as [p|s|] eqn:Hp; cbn [Math_ceil]; try discriminate.
  pose proof (mul64_nonneg _ _ _ Hd Hr Hp) as H0.
  intros [= Hn]. rewrite <- Hn.
  change 0 with (Qceiling (inject_Z 0)). apply Qceiling_resp_le. exact H0.
Qed.

Lemma generatePeaks_ffmpeg_eq (duration : number) (n : Z) (samples : list number) :
  array_length (PeaksFfmpeg.totalPeaks duration) = Some n ->
  PeaksFfmpeg.generatePeaks (Ok duration) (Ok samples) =
  Ok (let ps := map (PeaksFfmpeg.peakAt samples
                       (Spec.samplesPerBucket (Z.of_nat (length samples)) n))
                    (range 0 n) in
      {| peaks := ps; duration := duration;
         sampleRate := PeaksFfmpeg.PEAKS_PER_SECOND; length_ := length ps |}).
Proof.
  intros Hn. unfold PeaksFfmpeg.generatePeaks. cbn [JS.bind]. rewrite Hn. reflexivity.
Qed.

(** What a returned object is made of; [n] is the number of its buckets. *)
Lemma generatePeaks_ffmpeg_inv probed rawPcm pd :
  PeaksFfmpeg.generatePeaks probed rawPcm = Ok pd ->
  exists d samples,
    probed = Ok (Fin d) /\ rawPcm = Ok samples /\
    let n := Z.of_nat (length (peaks pd)) in
    array_length (PeaksFfmpeg.totalPeaks (Fin d)) = Some n /\
    n <= MAX_ARRAY_LENGTH /\
    peaks pd = map (PeaksFfmpeg.peakAt samples
                      (Spec.samplesPerBucket (Z.of_nat (length samples)) n))
                   (range 0 n) /\
    length_ pd = length (peaks pd) /\
    duration pd = Fin d.
Proof.
  unfold PeaksFfmpeg.generatePeaks.
  destruct probed as [dn|e]; cbn [JS.bind]; [|discriminate].
  destruct rawPcm as [samples|e]; cbn [JS.bind]; [|discriminate].
  destruct (array_length (PeaksFfmpeg.totalPeaks dn)) as [n|] eqn:Hn; [|discriminate].
  intros [= <-]. cbn [peaks length_ duration].
  pose proof (array_length_bounds _ _ Hn) as Hb.
  assert (Hlen : Z.of_nat (length (map (PeaksFfmpeg.peakAt samples
                   (Z.max 1 (Z.of_nat (length samples) / n))) (range 0 n))) = n).
  { rewrite List.length_map, length_range. lia. }
  destruct dn as [d|s|]; [|discriminate Hn|discriminate Hn].
  exists d, samples. split; [reflexivity|]. split; [reflexivity|].
  cbv zeta. rewrite Hlen. unfold Spec.samplesPerBucket.
  repeat split; [exact Hn | lia].
Qed.

(** C1 (as amended): let [n] be the bucket count the program computes for a
    positive duration [d], the ceiling of the double product
    [d * PEAKS_PER_SECOND].  When [n] is a legal array length, the raw-PCM
    [generatePeaks] returns, for any sample array, exactly [n] entries; entry
    [i] is the 4-decimal rounding of the maximum absolute sample over the
    window [[i*spp, min((i+1)*spp, totalSampleCount))] with
    [spp = max(1, floor(totalSampleCount / n))], the samples that are [NaN]
    being skipped and a window without any other giving 0; with no samples at
    all every entry is 0. *)
Theorem generatePeaks_ffmpeg_buckets (d : Q) (n : Z) (samples : list number) :
  (0 < d)%Q ->
  PeaksFfmpeg.totalPeaks (Fin d) = Fin (inject_Z n) ->
  n <= MAX_ARRAY_LENGTH ->
  let total := Z.of_nat (length samples) in
  let spp := Spec.samplesPerBucket total n in
  exists pd,
    PeaksFfmpeg.generatePeaks (Ok (Fin d)) (Ok samples) = Ok pd /\
    length (peaks pd) = Z.to_nat n /\
    (forall i, 0 <= i < n ->
       exists m,
         Spec.window_max samples (i * spp) (Z.min ((i + 1) * spp) total) m /\
         nth_error (peaks pd) (Z.to_nat i) = Some (Spec.round4_number m)) /\
    (samples = [] -> Forall (fun v => Spec.is_value v 0) (peaks pd)).
Proof.
  intros Hd Hcount Hmax total spp.
  assert (Hn : 0 <= n) by (apply (totalPeaks_nonneg d n); [apply Qlt_le_weak|]; assumption).
  assert (Hv : array_length (PeaksFfmpeg.totalPeaks (Fin d)) = Some n).
  { rewrite Hcount. apply array_length_integer. lia. }
  assert (Hspp : 1 <= spp) by (unfold spp, Spec.samplesPerBucket; lia).
  eexists. split; [apply generatePeaks_ffmpeg_eq; exact Hv|]. cbn [peaks].
  split; [|split].
  - rewrite List.length_map. apply length_range.
  - intros i Hi. fold total spp.
    destruct (peakAt_spec samples spp i) as (m & Hw & Hp); [lia | lia |].
    exists m. split.
    + replace ((i + 1) * spp) with (i * spp + spp) by lia. exact Hw.
    + rewrite nth_error_map, (nth_error_range n i Hi). simpl. now rewrite Hp.
  - intros ->. apply List.Forall_forall. intros v Hin.
    apply in_map_iff in Hin as (i & <- & Hin). apply in_range in Hin; [|lia].
    unfold PeaksFfmpeg.peakAt, PeaksFfmpeg.bucketMax.
    rewrite range_empty by (simpl; nia). simpl. reflexivity.
Qed.

Lemma generatePeaks_ffmpeg_buckets_witness :
  exists pd,
    PeaksFfmpeg.generatePeaks (Ok (Fin (1 # 32)))
      (Ok [Fin (1 # 2); Fin (-3 # 4); NaN; Fin (3 # 2); Fin 0; Inf true;
           Fin (2 # 3); Fin (1 # 100000); Fin (1 # 8)]) = Ok pd /\
    length (peaks pd) = 4%nat.
Proof.
  destruct (generatePeaks_ffmpeg_buckets (1 # 32) 4
              [Fin (1 # 2); Fin (-3 # 4); NaN; Fin (3 # 2); Fin 0; Inf true;
               Fin (2 # 3); Fin (1 # 100000); Fin (1 # 8)])
    as (pd & Hgen & Hlen & _).
  - reflexivity.
  - vm_compute. reflexivity.
  - vm_compute. discriminate.
  - exists pd. split; [exact Hgen | exact Hlen].
Defined.

(** C1, as stated, fails.  A duration of 42949673 s asks for 4294967300
    buckets, which [new Array] refuses: the call throws instead of returning
    buckets.  An entry is the rounded maximum, not the maximum: the single
    sample 0.00001 gives the entry 0.  The bucket count is the ceiling of the
    double product, not of the exact one: for the double 0.01, whose exact
    value lies above 1/100, the product is rounded to 1 and there is one
    bucket, where the exact ceiling is 2; and a duration printed as 0.07
    gives 8 buckets, where the ceiling of 7/100 * 100 is 7.  And a sample
    that is [NaN] is skipped: a window that holds nothing else gives 0,
    though it is not empty. *)
Lemma generatePeaks_ffmpeg_not_as_stated :
  PeaksFfmpeg.generatePeaks (Ok (Fin (42949673 # 1))) (Ok []) = Err RangeError /\
  (exists pd,
     PeaksFfmpeg.generatePeaks (Ok (Fin (1 # 128))) (Ok [Fin (1 # 100000)]) = Ok pd /\
     peaks pd = [Fin (0 # 10000)] /\
     Spec.window_max [Fin (1 # 100000)] 0 1 (Fin (1 # 100000)) /\
     ~ Spec.is_value (Fin (0 # 10000)) (1 # 100000)) /\
  (let d := (5764607523034235 # 576460752303423488)%Q in
   double d = Fin d /\
   (1 # 100 < d)%Q /\
   Spec.totalPeaks d PeaksFfmpeg.PEAKS_PER_SECOND = 2 /\
   exists pd,
     PeaksFfmpeg.generatePeaks (Ok (Fin d)) (Ok []) = Ok pd /\
     length (peaks pd) = 1%nat) /\
  (Spec.totalPeaks (7 # 100) PeaksFfmpeg.PEAKS_PER_SECOND = 7 /\
   exists pd,
     PeaksFfmpeg.generatePeaks (Ok (Fin (7 # 100))) (Ok []) = Ok pd /\
     length (peaks pd) = 8%nat) /\
  (exists pd,
     PeaksFfmpeg.generatePeaks (Ok (Fin (1 # 128))) (Ok [NaN]) = Ok pd /\
     peaks pd = [Fin (0 # 10000)] /\
     Math_abs (PeaksFfmpeg.sample [NaN] 0) = NaN).
Proof.
  split; [vm_compute; reflexivity|]. split; [|split; [|split]].
  - eexists. split; [vm_compute; reflexivity|]. split; [reflexivity|]. split.
    + split.
      * intros j s Hj Hs _. replace j with 0 in Hs by lia. simpl in Hs.
        injection Hs as <-. simpl. apply Qle_refl.
      * left. exists 0, (Fin (1 # 100000)). repeat split; try lia.
        discriminate.
    + simpl. discriminate.
  - cbv zeta. split; [vm_compute; reflexivity|]. split; [reflexivity|].
    split; [reflexivity|]. eexists. split; [vm_compute; reflexivity | reflexivity].
  - split; [reflexivity|]. eexists. split; [vm_compute; reflexivity | reflexivity].
  - eexists. split; [vm_compute; reflexivity|]. split; reflexivity.
Qed.

(** When no sample is infinite, all entries of the raw-PCM result are
    multiples of 1/10000. *)
Lemma generatePeaks_ffmpeg_quantised duration samples pd :
  Forall (fun s => forall negative, s <> Inf negative) samples ->
  PeaksFfmpeg.generatePeaks duration (Ok samples) = Ok pd ->
  Forall Spec.multiple_of_1e4 (peaks pd).
Proof.
  intros Hfin H. apply generatePeaks_ffmpeg_inv in H
    as (d & samples' & _ & [= <-] & _ & _ & Hp & _).
  rewrite Hp. apply List.Forall_forall. intros v Hin.
  apply in_map_iff in Hin as (i & <- & Hin). apply in_range in Hin; [|lia].
  destruct (peakAt_spec samples
              (Spec.samplesPerBucket (Z.of_nat (length samples))
                 (Z.of_nat (length (peaks pd)))) i)
    as (m & Hw & ->); [lia | unfold Spec.samplesPerBucket; lia |].
  assert (Hm : exists q, m = Fin q).
  { destruct Hw as [_ [(j & s & _ & Hs & Hn & Hm)|Hm]].
    - apply nth_error_In in Hs. eapply List.Forall_forall in Hfin; [|exact Hs].
      destruct s as [x|t|]; [|destruct (Hfin t eq_refl)|congruence].
      destruct m as [q|t|]; simpl in Hm; [eauto | tauto | tauto].
    - destruct m as [q|t|]; simpl in Hm; [eauto | tauto | tauto]. }
  destruct Hm as (q & ->). simpl.
  destruct (round4_multiple q) as (k & Hk). exists k. exact Hk.
Qed.

(** ** The extrema-pair back end *)

Lemma length_pairIndices (n : nat) :
  length (PeaksAudiowaveform.pairIndices n) = Nat.div2 (S n).
Proof.
  unfold PeaksAudiowaveform.pairIndices.
  now rewrite List.length_map, List.length_seq.
Qed.

Lemma nth_error_pairIndices (n k : nat) :
  (k < Nat.div2 (S n))%nat ->
  nth_error (PeaksAudiowaveform.pairIndices n) k = Some (2 * Z.of_nat k).
Proof.
  intros Hk. unfold PeaksAudiowaveform.pairIndices.
  rewrite nth_error_map, nth_error_seq.
  apply Nat.ltb_lt in Hk. rewrite Hk. reflexivity.
Qed.

(** The loop variable takes the even values below [data.length]. *)
Lemma in_pairIndices (n : nat) (i : Z) :
  In i (PeaksAudiowaveform.pairIndices n) <->
  0 <= i < Z.of_nat n /\ Z.even i = true.
Proof.
  unfold PeaksAudiowaveform.pairIndices. rewrite in_map_iff.
  rewrite (Nat.div2_div (S n)). split.
  - intros (k & <- & Hk). apply in_seq in Hk.
    split; [|rewrite Z.even_mul; reflexivity].
    assert (k < S n / 2)%nat by lia.
    assert (2 * (S n / 2) <= S n)%nat by (apply Nat.Div0.mul_div_le). lia.
  - intros [Hi Hev]. apply Zeven_bool_iff, Zeven_ex in Hev as (k & ->).
    exists (Z.to_nat k). split; [lia|]. apply in_seq.
    assert (S n < 2 * (S n / 2) + 2)%nat.
    { pose proof (Nat.div_mod_eq (S n) 2).
      pose proof (Nat.mod_upper_bound (S n) 2). lia. }
    lia.
Qed.

Lemma generatePeaks_audiowaveform_inv tool pd :
  PeaksAudiowaveform.generatePeaks tool = Ok pd ->
  exists wf,
    tool = Ok wf /\
    PeaksAudiowaveform.data wf <> [] /\
    peaks pd =
      map (PeaksAudiowaveform.peakOfPair (PeaksAudiowaveform.data wf))
          (PeaksAudiowaveform.pairIndices
             (length (PeaksAudiowaveform.data wf))) /\
    length_ pd = length (peaks pd).
Proof.
  unfold PeaksAudiowaveform.generatePeaks, PeaksAudiowaveform.generateWaveformData.
  destruct tool as [wf|e]; simpl; [|discriminate].
  destruct (PeaksAudiowaveform.data wf) as [|x xs] eqn:Hd; simpl; [discriminate|].
  intros [= <-]. exists wf. rewrite Hd. simpl. repeat split. discriminate.
Qed.

(** The number of entries is the number of loop iterations, [ceil(n / 2)]. *)
Lemma generatePeaks_audiowaveform_length tool pd :
  PeaksAudiowaveform.generatePeaks tool = Ok pd ->
  exists wf,
    tool = Ok wf /\
    length (peaks pd) = Nat.div2 (S (length (PeaksAudiowaveform.data wf))).
Proof.
  intros H. apply generatePeaks_audiowaveform_inv in H as (wf & -> & _ & Hp & _).
  exists wf. split; [reflexivity|].
  now rewrite Hp, List.length_map, length_pairIndices.
Qed.

Lemma peakOfPair_complete (data : list Q) (k : nat) (a b : Q) :
  nth_error data (2 * k) = Some a ->
  nth_error data (2 * k + 1) = Some b ->
  PeaksAudiowaveform.peakOfPair data (2 * Z.of_nat k) =
  Fin (Spec.round4 (Spec.larger (Qabs a) (Qabs b) / 128)).
Proof.
  intros Ha Hb. unfold PeaksAudiowaveform.peakOfPair, PeaksAudiowaveform.at_.
  replace (Z.to_nat (2 * Z.of_nat k)) with (2 * k)%nat by lia.
  replace (Z.to_nat (2 * Z.of_nat k + 1)) with (2 * k + 1)%nat by lia.
  rewrite Ha, Hb. unfold Spec.larger, Math_abs, Math_max.
  destruct (Qle_bool (Qabs a) (Qabs b)); reflexivity.
Qed.

(** A pair whose second half lies past the end of the array yields [NaN]. *)
Lemma peakOfPair_incomplete (data : list Q) (i : Z) :
  0 <= i -> (length data <= Z.to_nat (i + 1))%nat ->
  PeaksAudiowaveform.peakOfPair data i = NaN.
Proof.
  intros Hi Hlen. unfold PeaksAudiowaveform.peakOfPair, PeaksAudiowaveform.at_.
  apply nth_error_None in Hlen. rewrite Hlen.
  destruct (nth_error data (Z.to_nat i)); reflexivity.
Qed.

Lemma larger_bounds (a b c : Q) :
  (0 <= a)%Q -> (a <= c)%Q -> (b <= c)%Q ->
  (0 <= Spec.larger a b)%Q /\ (Spec.larger a b <= c)%Q.
Proof.
  intros H0 Ha Hb. unfold Spec.larger. destruct (Qle_bool a b) eqn:Hle.
  - apply Qle_bool_iff in Hle. split; [eapply Qle_trans; eassumption | assumption].
  - split; assumption.
Qed.

Lemma pair_peak_in_unit_interval (a b : Q) :
  (Qabs a <= 128)%Q -> (Qabs b <= 128)%Q ->
  Spec.in_unit_interval (Fin (Spec.round4 (Spec.larger (Qabs a) (Qabs b) / 128))).
Proof.
  intros Ha Hb.
  destruct (larger_bounds (Qabs a) (Qabs b) 128 (Qabs_nonneg a) Ha Hb) as [H0 H1].
  split.
  - apply round4_nonneg. apply Qle_shift_div_l; [reflexivity|].
    rewrite Qmult_0_l. exact H0.
  - apply round4_le_1. apply Qle_shift_div_r; [reflexivity|].
    rewrite Qmult_1_l. exact H1.
Qed.

Lemma window_max_bounds (samples : list number) (lo hi : Z) (m : number) :
  Forall (Spec.abs_at_most 1) samples ->
  Spec.window_max samples lo hi m -> Spec.in_unit_interval m.
Proof.
  intros Hall [_ [(j & s & _ & Hs & Hn & Hm)|Hm]].
  - apply nth_error_In in Hs. eapply List.Forall_forall in Hall; [|exact Hs].
    destruct s as [x|t|]; simpl in Hall; [|tauto|congruence].
    destruct m as [q|t|]; simpl in Hm |- *; [|tauto|tauto].
    rewrite Hm. split; [apply Qabs_nonneg | exact Hall].
  - destruct m as [q|t|]; simpl in Hm |- *; [|tauto|tauto].
    rewrite Hm. split; discriminate.
Qed.

(** ** Claims on the peaks array *)

(** C2 (as amended): when every decoded sample has magnitude at most 1 (a
    sample that is [NaN] has none, and is skipped), every entry of the
    raw-PCM result lies in [0, 1] after rounding; and in the extrema-pair
    result every entry computed from a complete (min, max) pair whose two
    values lie in [-128, 128] lies in [0, 1] after rounding, whatever the
    other values of the data array are. *)
Theorem peaks_in_unit_interval :
  (forall probed samples pd,
     Forall (Spec.abs_at_most 1) samples ->
     PeaksFfmpeg.generatePeaks probed (Ok samples) = Ok pd ->
     Forall Spec.in_unit_interval (peaks pd)) /\
  (forall wf pd (k : nat) (a b : Q),
     PeaksAudiowaveform.generatePeaks (Ok wf) = Ok pd ->
     nth_error (PeaksAudiowaveform.data wf) (2 * k) = Some a ->
     nth_error (PeaksAudiowaveform.data wf) (2 * k + 1) = Some b ->
     (Qabs a <= 128)%Q -> (Qabs b <= 128)%Q ->
     exists v, nth_error (peaks pd) k = Some v /\ Spec.in_unit_interval v).
Proof.
  split.
  - intros probed samples pd Hall Hgen.
    apply generatePeaks_ffmpeg_inv in Hgen
      as (d & samples' & _ & [= <-] & _ & _ & Hp & _).
    rewrite Hp. apply List.Forall_forall. intros v Hin.
    apply in_map_iff in Hin as (i & <- & Hin). apply in_range in Hin; [|lia].
    destruct (peakAt_spec samples
                (Spec.samplesPerBucket (Z.of_nat (length samples))
                   (Z.of_nat (length (peaks pd)))) i)
      as (m & Hw & ->); [lia | unfold Spec.samplesPerBucket; lia |].
    pose proof (window_max_bounds _ _ _ _ Hall Hw) as Hm.
    destruct m as [q|t|]; simpl in Hm |- *; try tauto.
    destruct Hm as [H0 H1].
    split; [apply round4_nonneg | apply round4_le_1]; assumption.
  - intros wf pd k a b Hgen Ha Hb Hla Hlb.
    apply generatePeaks_audiowaveform_inv in Hgen as (wf' & [= <-] & _ & Hp & _).
    set (data := PeaksAudiowaveform.data wf) in *.
    assert (Hlen : (2 * k + 1 < length data)%nat)
      by (apply nth_error_Some; congruence).
    assert (Hk' : (k < Nat.div2 (S (length data)))%nat).
    { rewrite Nat.div2_div.
      assert (S (length data) < 2 * (S (length data) / 2) + 2)%nat.
      { pose proof (Nat.div_mod_eq (S (length data)) 2).
        pose proof (Nat.mod_upper_bound (S (length data)) 2). lia. }
      lia. }
    exists (PeaksAudiowaveform.peakOfPair data (2 * Z.of_nat k)). split.
    + rewrite Hp, nth_error_map, (nth_error_pairIndices _ _ Hk'). reflexivity.
    + rewrite (peakOfPair_complete data k a b Ha Hb).
      apply pair_peak_in_unit_interval; assumption.
Qed.

Lemma peaks_in_unit_interval_witness :
  (exists pd,
     PeaksFfmpeg.generatePeaks (Ok (Fin (1 # 64)))
       (Ok [Fin (1 # 2); Fin (-1 # 1); NaN; Fin (1 # 3)]) = Ok pd /\
     Forall Spec.in_unit_interval (peaks pd)) /\
  (exists pd v,
     PeaksAudiowaveform.generatePeaks
       (Ok (PeaksAudiowaveform.mkAudiowaveformData
              2 1 44100 882 8 2 [0; 1; 255; 0]%Q)) = Ok pd /\
     nth_error (peaks pd) 0 = Some v /\ Spec.in_unit_interval v).
Proof.
  split.
  - eexists. split; [vm_compute; reflexivity|].
    apply (proj1 peaks_in_unit_interval (Ok (Fin (1 # 64)))
             [Fin (1 # 2); Fin (-1 # 1); NaN; Fin (1 # 3)]).
    + repeat constructor; simpl; discriminate.
    + vm_compute. reflexivity.
  - destruct (proj2 peaks_in_unit_interval
                (PeaksAudiowaveform.mkAudiowaveformData
                   2 1 44100 882 8 2 [0; 1; 255; 0]%Q) _ 0%nat 0%Q 1%Q
                eq_refl eq_refl eq_refl
                ltac:(discriminate) ltac:(discriminate)) as (v & Hv & Hin).
    eexists. exists v. split; [reflexivity|]. split; assumption.
Defined.

(** C2, as stated, fails: nothing clamps the amplitude.  A decoded sample of
    1.5 gives the peak 1.5, and the 8-bit value 255 gives the peak 1.9922. *)
Lemma peaks_outside_unit_interval :
  (exists pd,
     PeaksFfmpeg.generatePeaks (Ok (Fin (1 # 128))) (Ok [Fin (3 # 2)]) = Ok pd /\
     peaks pd = [Fin (15000 # 10000)] /\
     ~ Spec.in_unit_interval (Fin (15000 # 10000))) /\
  (exists pd,
     PeaksAudiowaveform.generatePeaks
       (Ok (PeaksAudiowaveform.mkAudiowaveformData
              2 1 44100 882 8 1 [0; 255]%Q)) = Ok pd /\
     peaks pd = [Fin (19922 # 10000)] /\
     ~ Spec.in_unit_interval (Fin (19922 # 10000))).
Proof.
  split; eexists; (split; [vm_compute; reflexivity|]); (split; [reflexivity|]);
    intros [_ H]; apply H; reflexivity.
Qed.

(** C3 (the code does otherwise): with five data values the loop runs three
    times, for [i = 0, 2, 4]; the third iteration reads [data[5]], past the
    end, and pushes [NaN]: three entries, not two. *)
Theorem generatePeaks_audiowaveform_odd_length :
  let data := [-1; 2; -128; 127; 5]%Q in
  exists pd,
    PeaksAudiowaveform.generatePeaks
      (Ok (PeaksAudiowaveform.mkAudiowaveformData 2 1 44100 882 8 3 data)) = Ok pd /\
    PeaksAudiowaveform.pairIndices (length data) = [0; 2; 4] /\
    PeaksAudiowaveform.at_ data (4 + 1) = NaN /\
    peaks pd = [Fin (156 # 10000); Fin (10000 # 10000); NaN] /\
    length (peaks pd) = 3%nat /\
    length (peaks pd) <> Nat.div2 (length data).
Proof.
  simpl. eexists. split; [reflexivity|]. repeat split. simpl. lia.
Qed.

(** For every odd length the last entry is [NaN] and there are
    [floor(n / 2) + 1] entries. *)
Lemma generatePeaks_audiowaveform_odd wf pd :
  Nat.odd (length (PeaksAudiowaveform.data wf)) = true ->
  PeaksAudiowaveform.generatePeaks (Ok wf) = Ok pd ->
  length (peaks pd) = S (Nat.div2 (length (PeaksAudiowaveform.data wf))) /\
  nth_error (peaks pd) (Nat.div2 (length (PeaksAudiowaveform.data wf))) = Some NaN.
Proof.
  intros Hodd Hgen.
  apply generatePeaks_audiowaveform_inv in Hgen as (wf' & [= <-] & _ & Hp & _).
  set (n := length (PeaksAudiowaveform.data wf)) in *.
  apply Nat.odd_spec in Hodd as (h & Hn).
  assert (Hh : Nat.div2 n = h).
  { rewrite Nat.div2_div, Hn. replace (2 * h + 1)%nat with (1 + h * 2)%nat by lia.
    rewrite Nat.div_add by lia. reflexivity. }
  assert (HS : Nat.div2 (S n) = S h).
  { rewrite Nat.div2_div, Hn. replace (S (2 * h + 1)) with (0 + (S h) * 2)%nat by lia.
    rewrite Nat.div_add by lia. reflexivity. }
  rewrite Hp, List.length_map, length_pairIndices, nth_error_map, Hh, HS.
  split; [reflexivity|].
  rewrite nth_error_pairIndices by lia. simpl.
  rewrite peakOfPair_incomplete; [reflexivity | lia | fold n; lia].
Qed.

(** C4: the [length] field of every returned object is the number of entries
    of its [peaks] array, for both back ends. *)
Theorem peaksData_length_invariant :
  (forall duration rawPcm pd,
     PeaksFfmpeg.generatePeaks duration rawPcm = Ok pd ->
     length_ pd = length (peaks pd)) /\
  (forall tool pd,
     PeaksAudiowaveform.generatePeaks tool = Ok pd ->
     length_ pd = length (peaks pd)).
Proof.
  split.
  - intros duration rawPcm pd H.
    apply generatePeaks_ffmpeg_inv in H as (d & samples & _ & _ & _ & _ & _ & Hlen & _).
    exact Hlen.
  - intros tool pd H.
    apply generatePeaks_audiowaveform_inv in H as (wf & _ & _ & _ & Hlen).
    exact Hlen.
Qed.

Lemma peaksData_length_invariant_witness :
  (exists pd,
     PeaksFfmpeg.generatePeaks (Ok (Fin (1 # 32)))
       (Ok [Fin (1 # 2); Fin (-3 # 4)]) = Ok pd /\
     length_ pd = length (peaks pd)) /\
  (exists pd,
     PeaksAudiowaveform.generatePeaks
       (Ok (PeaksAudiowaveform.mkAudiowaveformData
              2 1 44100 882 8 2 [-128; 127; -3; 40]%Q)) = Ok pd /\
     length_ pd = length (peaks pd)).
Proof.
  split; eexists; (split; [vm_compute; reflexivity|]).
  - apply (proj1 peaksData_length_invariant (Ok (Fin (1 # 32)))
             (Ok [Fin (1 # 2); Fin (-3 # 4)])). vm_compute. reflexivity.
  - apply (proj2 peaksData_length_invariant
             (Ok (PeaksAudiowaveform.mkAudiowaveformData
                    2 1 44100 882 8 2 [-128; 127; -3; 40]%Q))). reflexivity.
Defined.

(** C10 (the code does otherwise): an odd-length data array puts [NaN] in the
    peaks array, which is no multiple of 1/10000 (and is serialised as
    [null]). *)
Theorem peaks_not_all_quantised :
  exists pd,
    PeaksAudiowaveform.generatePeaks
      (Ok (PeaksAudiowaveform.mkAudiowaveformData 2 1 44100 882 8 2 [1; 2; 3]%Q))
    = Ok pd /\
    peaks pd = [Fin (156 # 10000); NaN] /\
    ~ Forall Spec.multiple_of_1e4 (peaks pd).
Proof.
  eexists. split; [reflexivity|]. split; [reflexivity|].
  intros H. simpl in H. inversion H as [|? ? _ H2]. inversion H2 as [|? ? H3 _].
  destruct H3 as [k Hk]. exact Hk.
Qed.

(** Apart from that, every entry pushed for a complete pair is a multiple of
    1/10000. *)
Lemma generatePeaks_audiowaveform_quantised wf pd (k : nat) :
  PeaksAudiowaveform.generatePeaks (Ok wf) = Ok pd ->
  (2 * k + 1 < length (PeaksAudiowaveform.data wf))%nat ->
  exists v, nth_error (peaks pd) k = Some v /\ Spec.multiple_of_1e4 v.
Proof.
  intros Hgen Hk.
  apply generatePeaks_audiowaveform_inv in Hgen as (wf' & [= <-] & _ & Hp & _).
  set (data := PeaksAudiowaveform.data wf) in *.
  assert (Hk' : (k < Nat.div2 (S (length data)))%nat).
  { rewrite Nat.div2_div.
    pose proof (Nat.div_mod_eq (S (length data)) 2).
    pose proof (Nat.mod_upper_bound (S (length data)) 2). lia. }
  destruct (nth_error data (2 * k)) as [a|] eqn:Ha;
    [|apply nth_error_None in Ha; lia].
  destruct (nth_error data (2 * k + 1)) as [b|] eqn:Hb;
    [|apply nth_error_None in Hb; lia].
  exists (PeaksAudiowaveform.peakOfPair data (2 * Z.of_nat k)). split.
  - rewrite Hp, nth_error_map, (nth_error_pairIndices _ _ Hk'). reflexivity.
  - rewrite (peakOfPair_complete data k a b Ha Hb).
    destruct (round4_multiple (Spec.larger (Qabs a) (Qabs b) / 128)) as (z & Hz).
    exists z. exact Hz.
Qed.

(** ** The file system primitives *)

Lemma String_length_append (a b : string) :
  String.length (a +:+ b) = (String.length a + String.length b)%nat.
Proof. induction a as [|c a IH]; simpl; [reflexivity | now rewrite IH]. Qed.

(** The temporary path is never the path of the original. *)
Lemma tempPath_ne (p : Path.ParsedPath) :
  AudioReencode.tempPath p <> Path.format p.
Proof.
  intros H. apply (f_equal String.length) in H.
  unfold AudioReencode.tempPath, Path.format, Path.join in H.
  repeat rewrite String_length_append in H. simpl in H. lia.
Qed.

Section FsSteps.
Import Fs FsPromises.

Lemma unlink_present (path : string) (d : Disk) (x : FileData) :
  files d !! path = Some x ->
  unlink path d =
  (Ok tt, {| files := delete path (files d);
             journal := journal d ++ [CallUnlink path] |}).
Proof. intros H. unfold unlink, Fs.bind, record, getFiles, setFiles. simpl. now rewrite H. Qed.

Lemma readFile_present (path : string) (d : Disk) (x : FileData) :
  files d !! path = Some x ->
  readFile path d =
  (Ok x, {| files := files d; journal := journal d ++ [CallReadFile path] |}).
Proof. intros H. unfold readFile, Fs.bind, record, getFiles, ret. simpl. now rewrite H. Qed.

Lemma writeFile_eq (path : string) (x : FileData) (d : Disk) :
  writeFile path x d =
  (Ok tt, {| files := <[path := x]> (files d);
             journal := journal d ++ [CallWriteFile path x] |}).
Proof. reflexivity. Qed.

Lemma reencode_done (out : list Byte.byte) (i o : string) (b s : Z)
    (d : Disk) (x : FileData) :
  files d !! i = Some x ->
  AudioReencode.reencodeMp3ToCbr (AudioReencode.Encoded out) i o b s d =
  (Ok tt, {| files := <[o := Raw out]> (files d);
             journal := journal d ++ [CallEncode i o] |}).
Proof.
  intros H. unfold AudioReencode.reencodeMp3ToCbr, Fs.bind, record, getFiles, setFiles.
  simpl. now rewrite H.
Qed.

Lemma reencode_failed ffmpeg (i o : string) (b s : Z) (d : Disk) :
  (forall out, ffmpeg <> AudioReencode.Encoded out) \/ files d !! i = None ->
  exists fs',
    AudioReencode.reencodeMp3ToCbr ffmpeg i o b s d =
    (Err (ToolError "ffmpeg"),
     {| files := fs'; journal := journal d ++ [CallEncode i o] |}) /\
    forall path, path <> o -> fs' !! path = files d !! path.
Proof.
  intros H. unfold AudioReencode.reencodeMp3ToCbr, Fs.bind, record, getFiles,
    setFiles, throw. simpl.
  destruct (files d !! i) as [x|] eqn:Hi; [destruct ffmpeg as [out|[part|]]|].
  - destruct H as [H|H]; [now destruct (H out) | discriminate].
  - eexists. split; [reflexivity|]. intros path Hne. now apply lookup_insert_ne.
  - eexists. split; [reflexivity|]. reflexivity.
  - eexists. split; [reflexivity|]. reflexivity.
Qed.

End FsSteps.

(** ** The normaliser *)

Lemma replaceWithCbrMp3_done (out : list Byte.byte) (filePath : Path.ParsedPath)
    (bitrate sampleRate : Z) (d : Fs.Disk) (x : Fs.FileData) :
  let orig := Path.format filePath in
  let tmp := AudioReencode.tempPath filePath in
  Fs.files d !! orig = Some x ->
  AudioReencode.replaceWithCbrMp3 (AudioReencode.Encoded out) filePath
    bitrate sampleRate d =
  (Ok tt,
   {| Fs.files :=
        delete tmp (<[orig := Fs.Raw out]>
          (delete orig (<[tmp := Fs.Raw out]> (Fs.files d))));
      Fs.journal :=
        Fs.journal d ++
        [Fs.CallEncode orig tmp; Fs.CallUnlink orig; Fs.CallReadFile tmp;
         Fs.CallWriteFile orig (Fs.Raw out); Fs.CallUnlink tmp] |}).
Proof.
  intros orig tmp Hx.
  assert (Hne : tmp <> orig) by apply tempPath_ne.
  unfold AudioReencode.replaceWithCbrMp3.
  fold orig tmp. unfold Fs.bind at 1.
  rewrite (reencode_done out orig tmp bitrate sampleRate d x Hx).
  unfold Fs.bind at 1. erewrite unlink_present; cycle 1.
  { simpl. rewrite lookup_insert_ne by exact Hne. exact Hx. }
  unfold Fs.bind at 1. erewrite readFile_present; cycle 1.
  { simpl. rewrite lookup_delete_ne by congruence. apply lookup_insert_eq. }
  unfold Fs.bind at 1. rewrite writeFile_eq.
  erewrite unlink_present; cycle 1.
  { simpl. rewrite lookup_insert_ne by congruence.
    rewrite lookup_delete_ne by congruence. apply lookup_insert_eq. }
  simpl. repeat rewrite <- app_assoc. reflexivity.
Qed.

Lemma replaceWithCbrMp3_failed ffmpeg (filePath : Path.ParsedPath)
    (bitrate sampleRate : Z) (d : Fs.Disk) :
  let orig := Path.format filePath in
  let tmp := AudioReencode.tempPath filePath in
  (forall out, ffmpeg <> AudioReencode.Encoded out) \/ Fs.files d !! orig = None ->
  exists d',
    AudioReencode.replaceWithCbrMp3 ffmpeg filePath bitrate sampleRate d =
    (Err (ToolError "ffmpeg"), d') /\
    Fs.journal d' = Fs.journal d ++ [Fs.CallEncode orig tmp] /\
    Fs.files d' !! orig = Fs.files d !! orig.
Proof.
  intros orig tmp Hfail.
  assert (Hne : tmp <> orig) by apply tempPath_ne.
  unfold AudioReencode.replaceWithCbrMp3. fold orig tmp.
  destruct (reencode_failed ffmpeg orig tmp bitrate sampleRate d Hfail)
    as (fs' & Hre & Hsame).
  unfold Fs.bind at 1. rewrite Hre. eexists. split; [reflexivity|].
  split; [reflexivity|]. simpl. apply Hsame. congruence.
Qed.

(** C7: [replaceWithCbrMp3] runs re-encode to the sibling temporary path,
    delete the original, read the temporary file and write its bytes to the
    original path, delete the temporary file, in that order and nothing else;
    and when the re-encode step fails it throws with only that step made, the
    original file being as it was. *)
Theorem replaceWithCbrMp3_steps ffmpeg (filePath : Path.ParsedPath)
    (bitrate sampleRate : Z) (d : Fs.Disk) :
  let orig := Path.format filePath in
  let tmp := AudioReencode.tempPath filePath in
  (forall out x,
     ffmpeg = AudioReencode.Encoded out ->
     Fs.files d !! orig = Some x ->
     AudioReencode.replaceWithCbrMp3 ffmpeg filePath bitrate sampleRate d =
     (Ok tt,
      {| Fs.files :=
           delete tmp (<[orig := Fs.Raw out]>
             (delete orig (<[tmp := Fs.Raw out]> (Fs.files d))));
         Fs.journal :=
           Fs.journal d ++
           [Fs.CallEncode orig tmp; Fs.CallUnlink orig; Fs.CallReadFile tmp;
            Fs.CallWriteFile orig (Fs.Raw out); Fs.CallUnlink tmp] |})) /\
  ((forall out, ffmpeg <> AudioReencode.Encoded out) \/ Fs.files d !! orig = None ->
   exists d',
     AudioReencode.replaceWithCbrMp3 ffmpeg filePath bitrate sampleRate d =
     (Err (ToolError "ffmpeg"), d') /\
     Fs.journal d' = Fs.journal d ++ [Fs.CallEncode orig tmp] /\
     Fs.files d' !! orig = Fs.files d !! orig).
Proof.
  intros orig tmp. split.
  - intros out x -> Hx. exact (replaceWithCbrMp3_done out filePath _ _ d x Hx).
  - intros Hfail. exact (replaceWithCbrMp3_failed ffmpeg filePath _ _ d Hfail).
Qed.

Lemma replaceWithCbrMp3_steps_witness :
  let p := Path.mkPath "/srv/data/uploads" "a1" ".mp3" in
  let d := {| Fs.files := {[ "/srv/data/uploads/a1.mp3" := Fs.Raw [Byte.x49] ]};
              Fs.journal := [] |} in
  (exists d',
     AudioReencode.replaceWithCbrMp3
       (AudioReencode.Encoded [Byte.xff; Byte.xfb]) p 128 44100 d = (Ok tt, d') /\
     Fs.journal d' =
       [Fs.CallEncode "/srv/data/uploads/a1.mp3" "/srv/data/uploads/a1-cbr.mp3";
        Fs.CallUnlink "/srv/data/uploads/a1.mp3";
        Fs.CallReadFile "/srv/data/uploads/a1-cbr.mp3";
        Fs.CallWriteFile "/srv/data/uploads/a1.mp3" (Fs.Raw [Byte.xff; Byte.xfb]);
        Fs.CallUnlink "/srv/data/uploads/a1-cbr.mp3"]) /\
  (exists d',
     AudioReencode.replaceWithCbrMp3
       (AudioReencode.EncoderFailed (Some [Byte.xff])) p 128 44100 d
     = (Err (ToolError "ffmpeg"), d') /\
     Fs.files d' !! "/srv/data/uploads/a1.mp3" = Some (Fs.Raw [Byte.x49])).
Proof.
  intros p d. split.
  - eexists. split.
    + apply (proj1 (replaceWithCbrMp3_steps
                      (AudioReencode.Encoded [Byte.xff; Byte.xfb]) p 128 44100 d)
               [Byte.xff; Byte.xfb] (Fs.Raw [Byte.x49])); reflexivity.
    + reflexivity.
  - destruct (proj2 (replaceWithCbrMp3_steps
                       (AudioReencode.EncoderFailed (Some [Byte.xff])) p 128 44100 d))
      as (d' & Hrun & _ & Hsame).
    + left. intros out. discriminate.
    + exists d'. split; [exact Hrun|]. etransitivity; [exact Hsame | reflexivity].
Defined.

(** ** The peaks route *)

Lemma servePeaks_status (uploads : string) gen audio w :
  let st := Http.status (fst (PeaksRoute.servePeaks uploads gen audio w)) in
  st = 200 \/ st = 404 \/ st = 500.
Proof.
  unfold PeaksRoute.servePeaks.
  destruct (FsPromises.stat _ (Http.disk w)).
  - destruct (FsPromises.readFile _ _) as [[x|e] d]; simpl; auto.
  - destruct (FsPromises.stat _ (Http.disk w)); [|simpl; auto].
    destruct (generateAndSavePeaks _ _ _) as [[x|e] d]; [|simpl; auto].
    destruct (FsPromises.readFile _ _) as [[y|e] d']; simpl; auto.
Qed.

(** C5: a request without a session for an audio that is not public is
    answered 401 when the policy flag is set and 403 when it is not, never
    200; a request by the owner, or for a public audio (with a session when
    the flag demands one), passes the access check: it is answered by the
    serving part of the handler, never 401 or 403. *)
Theorem peaks_route_access (uploads : string) (flag : bool) (audioId : string)
    (session : option Http.Session) gen (w : Http.World) (audio : Http.Audio) :
  Http.db w !! audioId = Some audio ->
  (Http.isPublic audio = false -> session = None ->
   let r := fst (PeaksRoute.GET uploads flag audioId session gen w) in
   Http.status r = (if flag then 401 else 403) /\ Http.status r <> 200) /\
  (Spec.isOwner session audio \/
   (Http.isPublic audio = true /\ (flag = true -> is_Some session)) ->
   PeaksRoute.GET uploads flag audioId session gen w =
     PeaksRoute.servePeaks uploads gen audio w /\
   let r := fst (PeaksRoute.GET uploads flag audioId session gen w) in
   Http.status r <> 401 /\ Http.status r <> 403).
Proof.
  intros Hdb. split.
  - intros Hpriv ->. unfold PeaksRoute.GET. rewrite Hdb, Hpriv. simpl.
    destruct flag; simpl; split; congruence.
  - intros Hacc.
    assert (Heq : PeaksRoute.GET uploads flag audioId session gen w =
                  PeaksRoute.servePeaks uploads gen audio w).
    { unfold PeaksRoute.GET. rewrite Hdb.
      destruct Hacc as [(s & -> & Hs)|[Hpub Hsess]].
      - unfold PeaksRoute.isCreator. rewrite Hs, String.eqb_refl.
        rewrite orb_true_r, andb_false_r. reflexivity.
      - rewrite Hpub. simpl.
        destruct flag; simpl; [|reflexivity].
        destruct session as [s|]; [reflexivity|].
        destruct (Hsess eq_refl) as [x Hx]. discriminate. }
    split; [exact Heq|]. rewrite Heq.
    pose proof (servePeaks_status uploads gen audio w) as Hst. simpl in Hst.
    simpl. lia.
Qed.

Lemma peaks_route_access_witness :
  let audio := Http.mkAudio "a1" "Song" None "song.mp3"
                 (Path.mkPath "" "a1" ".mp3") "u1" false in
  let w := Http.mkWorld (Fs.mkDisk ∅ []) {[ "a1" := audio ]} [] in
  Http.status (fst (PeaksRoute.GET "/srv/data/uploads" true "a1" None
                      (Err (ToolError "ffprobe")) w)) = 401 /\
  Http.status (fst (PeaksRoute.GET "/srv/data/uploads" false "a1" None
                      (Err (ToolError "ffprobe")) w)) = 403 /\
  Http.status (fst (PeaksRoute.GET "/srv/data/uploads" true "a1"
                      (Some (Http.mkSession (Some "u1")))
                      (Err (ToolError "ffprobe")) w)) <> 403.
Proof.
  intros audio w. split; [|split].
  - apply (proj1 (peaks_route_access "/srv/data/uploads" true "a1" None
                    (Err (ToolError "ffprobe")) w audio eq_refl)); reflexivity.
  - apply (proj1 (peaks_route_access "/srv/data/uploads" false "a1" None
                    (Err (ToolError "ffprobe")) w audio eq_refl)); reflexivity.
  - apply (proj2 (peaks_route_access "/srv/data/uploads" true "a1"
                    (Some (Http.mkSession (Some "u1")))
                    (Err (ToolError "ffprobe")) w audio eq_refl)).
    left. exists (Http.mkSession (Some "u1")). split; reflexivity.
Defined.

(** ** The upload route *)

Lemma tryWarn_spec (step : Fs.io unit) (msg : string) (w : Http.World) :
  Http.db (UploadRoute.tryWarn step msg w) = Http.db w /\
  Http.console (UploadRoute.tryWarn step msg w) =
    Http.console w ++
    match fst (step (Http.disk w)) with
    | Ok _ => []
    | Err _ => [Http.Warn msg]
    end.
Proof.
  unfold UploadRoute.tryWarn. destruct (step (Http.disk w)) as [[u|e] d']; simpl.
  - split; [reflexivity | now rewrite app_nil_r].
  - split; reflexivity.
Qed.

(** After validation the handler reaches [db.audio.create] with the row of
    the new audio, in a world whose table is the one it started with. *)
Lemma POST_validated (uploads : string) (isPublicDefault : bool)
    session formData (newId : string) ffmpeg gen (w : Http.World)
    (userId name : string) file :
  Spec.passesValidation session formData userId name file ->
  let row :=
    {| Http.id := newId; Http.name := name;
       Http.description := UploadRoute.form_description formData;
       Http.originalFileName := UploadRoute.file_name file;
       Http.filePath := Path.mkPath "" newId ".mp3";
       Http.createdById := userId;
       Http.isPublic := isPublicDefault |} in
  exists w3,
    Http.db w3 = Http.db w /\
    Http.console w3 =
      Http.console w ++
      match ffmpeg with
      | AudioReencode.Encoded _ => []
      | AudioReencode.EncoderFailed _ =>
          [Http.Warn "CBR re-encode failed (non-fatal):"]
      end ++
      match gen with
      | Ok _ => []
      | Err _ => [Http.Warn "Peak generation failed (non-fatal):"]
      end /\
    UploadRoute.POST uploads isPublicDefault session formData newId ffmpeg gen w =
      match UploadRoute.db_audio_create row w3 with
      | (Ok audio, w') => (Http.respond 200 (Http.JsonUploaded (Http.id audio)), w')
      | (Err _, w') =>
          (Http.respond 500 (Http.JsonError "Upload failed"),
           Http.log (Http.Error "File upload error:") w')
      end.
Proof.
  intros (Hu & Hn & Hf & Hsz & Hext) row.
  unfold UploadRoute.POST. rewrite Hu, Hn, Hf, Hext.
  replace (UploadRoute.maxSize <? UploadRoute.size file) with false
    by (symmetry; apply Z.ltb_ge; exact Hsz).
  change (negb (".mp3" =? ".mp3")%string) with false. cbv iota zeta.
  set (p := Path.mkPath uploads newId ".mp3").
  set (w1 := Http.withDisk w _).
  set (w2 := UploadRoute.tryWarn _ "CBR re-encode failed (non-fatal):" w1).
  set (w3 := UploadRoute.tryWarn _ "Peak generation failed (non-fatal):" w2).
  destruct (tryWarn_spec
              (AudioReencode.replaceWithCbrMp3 ffmpeg p 128 44100)
              "CBR re-encode failed (non-fatal):" w1) as [Hdb2 Hc2].
  destruct (tryWarn_spec
              (Fs.bind (generateAndSavePeaks gen p) (fun _ => Fs.ret tt))
              "Peak generation failed (non-fatal):" w2) as [Hdb3 Hc3].
  fold w2 in Hdb2, Hc2, Hdb3, Hc3. fold w3 in Hdb3, Hc3.
  exists w3. split; [rewrite Hdb3, Hdb2; reflexivity|]. split; [|reflexivity].
  rewrite Hc3, Hc2. change (Http.console w1) with (Http.console w).
  rewrite <- app_assoc. f_equal. f_equal.
  - assert (Hx : Fs.files (Http.disk w1) !! Path.format p =
                 Some (Fs.Raw (UploadRoute.bytes file))).
    { unfold w1. simpl. apply lookup_insert_eq. }
    destruct ffmpeg as [out|part].
    + rewrite (replaceWithCbrMp3_done out p 128 44100 _ _ Hx). reflexivity.
    + destruct (replaceWithCbrMp3_failed (AudioReencode.EncoderFailed part)
                  p 128 44100 (Http.disk w1)) as (d' & -> & _).
      * left. intros out. discriminate.
      * reflexivity.
  - unfold Fs.bind. destruct gen as [pd|e]; reflexivity.
Qed.

(** C6: for an upload that passes validation, the answer and the table do
    not depend on what the re-encode step and the peak step do: when either
    throws, the handler still creates the database record and answers
    [{ success: true, id }] with the new id, exactly as when both succeed;
    a step that throws leaves a warning on the console and nothing else. *)
Theorem upload_survives_auxiliary_failures (uploads : string)
    (isPublicDefault : bool) session formData (newId : string)
    ffmpeg gen (w : Http.World) (userId name : string) file :
  Spec.passesValidation session formData userId name file ->
  let POST := UploadRoute.POST uploads isPublicDefault session formData newId in
  let row :=
    {| Http.id := newId; Http.name := name;
       Http.description := UploadRoute.form_description formData;
       Http.originalFileName := UploadRoute.file_name file;
       Http.filePath := Path.mkPath "" newId ".mp3";
       Http.createdById := userId;
       Http.isPublic := isPublicDefault |} in
  (forall out pd,
     fst (POST ffmpeg gen w) = fst (POST (AudioReencode.Encoded out) (Ok pd) w) /\
     Http.db (snd (POST ffmpeg gen w)) =
       Http.db (snd (POST (AudioReencode.Encoded out) (Ok pd) w))) /\
  (Http.db w !! newId = None ->
   exists w',
     POST ffmpeg gen w = (Http.respond 200 (Http.JsonUploaded newId), w') /\
     Http.db w' = <[newId := row]> (Http.db w) /\
     Http.console w' =
       Http.console w ++
       match ffmpeg with
       | AudioReencode.Encoded _ => []
       | AudioReencode.EncoderFailed _ =>
           [Http.Warn "CBR re-encode failed (non-fatal):"]
       end ++
       match gen with
       | Ok _ => []
       | Err _ => [Http.Warn "Peak generation failed (non-fatal):"]
       end).
Proof.
  intros Hval POST row. subst POST.
  destruct (POST_validated uploads isPublicDefault session formData newId
              ffmpeg gen w userId name file Hval) as (w3 & Hdb & Hcon & Hpost).
  split.
  - intros out pd.
    destruct (POST_validated uploads isPublicDefault session formData newId
                (AudioReencode.Encoded out) (Ok pd) w userId name file Hval)
      as (v3 & Hdb' & _ & Hpost').
    rewrite Hpost, Hpost'. unfold UploadRoute.db_audio_create.
    cbn [Http.id]. rewrite Hdb, Hdb'.
    destruct (Http.db w !! newId) as [x|]; simpl; rewrite ?Hdb, ?Hdb';
      split; reflexivity.
  - intros Hfresh. rewrite Hpost. unfold UploadRoute.db_audio_create.
    cbn [Http.id]. rewrite Hdb, Hfresh.
    eexists. split; [reflexivity|]. cbn [Http.db Http.console].
    split; [reflexivity | exact Hcon].
Qed.

Lemma upload_survives_auxiliary_failures_witness :
  let session := Some (Http.mkSession (Some "u1")) in
  let file := UploadRoute.mkFile "song.MP3" ".MP3" 3 [Byte.x49; Byte.x44; Byte.x33] in
  let formData := UploadRoute.mkForm (Some "Song") None (Some file) in
  let w := Http.mkWorld (Fs.mkDisk ∅ []) ∅ [] in
  exists w',
    UploadRoute.POST "/srv/data/uploads" false session formData "a1"
      (AudioReencode.EncoderFailed None) (Err (ToolError "ffprobe")) w =
      (Http.respond 200 (Http.JsonUploaded "a1"), w') /\
    is_Some (Http.db w' !! "a1") /\
    Http.console w' =
      [Http.Warn "CBR re-encode failed (non-fatal):";
       Http.Warn "Peak generation failed (non-fatal):"].
Proof.
  intros session file formData w.
  assert (Hval : Spec.passesValidation session formData "u1" "Song" file).
  { repeat split. vm_compute. discriminate. }
  destruct (proj2 (upload_survives_auxiliary_failures "/srv/data/uploads" false
                     session formData "a1" (AudioReencode.EncoderFailed None)
                     (Err (ToolError "ffprobe")) w "u1" "Song" file Hval) eq_refl)
    as (w' & Hpost & Hdb & Hcon).
  - exists w'. split; [exact Hpost|]. split.
    + rewrite Hdb. rewrite lookup_insert_eq. eexists. reflexivity.
    + exact Hcon.
Defined.

(** ** The service worker *)

(** An authentication request that is neither classified as audio nor as a
    static asset is forwarded live and leaves every partition as it was. *)
Lemma onFetch_auth_live (request : ServiceWorker.Request) network caches :
  ServiceWorker.method request = "GET" ->
  Str.startsWith (ServiceWorker.protocol (ServiceWorker.url request)) "http" = true ->
  ServiceWorker.isAudioRequest request = false ->
  ServiceWorker.isStaticAsset request = false ->
  ServiceWorker.isAuthRequest request = true ->
  ServiceWorker.onFetch true request network caches =
  (ServiceWorker.live network, caches).
Proof.
  intros Hm Hp Ha Hs Hauth. unfold ServiceWorker.onFetch.
  rewrite Hm, Hp, Ha, Hs, Hauth. reflexivity.
Qed.

(** C8 (the code does otherwise): the listener tests audio and static
    assets before authentication.  In production, a GET under [/api/auth/]
    sent with an [audio/*] accept header, or whose path ends in [.js], is
    stored in a cache partition on a 200 response and is then answered from
    the cache with the network down. *)
Theorem auth_request_cached :
  let resp := ServiceWorker.mkResponse 200 "{}" in
  let byAccept :=
    ServiceWorker.mkRequest "GET"
      (ServiceWorker.mkURL "https://app.example/api/auth/session" "https:"
         "/api/auth/session")
      (Some "audio/*") in
  let byExtension :=
    ServiceWorker.mkRequest "GET"
      (ServiceWorker.mkURL "https://app.example/api/auth/providers.js" "https:"
         "/api/auth/providers.js")
      None in
  let after r := snd (ServiceWorker.onFetch true r (Some resp) []) in
  ServiceWorker.isAuthRequest byAccept = true /\
  ServiceWorker.isAuthRequest byExtension = true /\
  ServiceWorker.matchIn ServiceWorker.AUDIO_CACHE_NAME byAccept (after byAccept)
    = Some resp /\
  ServiceWorker.matchIn ServiceWorker.STATIC_CACHE_NAME byExtension
    (after byExtension) = Some resp /\
  fst (ServiceWorker.onFetch true byAccept None (after byAccept))
    = ServiceWorker.Responded ServiceWorker.FromCache resp /\
  fst (ServiceWorker.onFetch true byExtension None (after byExtension))
    = ServiceWorker.Responded ServiceWorker.FromCache resp.
Proof. repeat split. Qed.

(** C9: the fetch listener leaves alone every request whose method is not
    GET or whose scheme does not begin with http: it returns without
    answering, and the cache storage is what it was; so a request it does
    answer is a GET over http(s). *)
Theorem fetch_listener_get_only (IS_PRODUCTION : bool)
    (request : ServiceWorker.Request) network caches :
  (ServiceWorker.method request <> "GET" \/
   Str.startsWith (ServiceWorker.protocol (ServiceWorker.url request)) "http" = false ->
   ServiceWorker.onFetch IS_PRODUCTION request network caches =
   (ServiceWorker.NotIntercepted, caches)) /\
  (fst (ServiceWorker.onFetch IS_PRODUCTION request network caches) <>
     ServiceWorker.NotIntercepted ->
   ServiceWorker.method request = "GET" /\
   Str.startsWith (ServiceWorker.protocol (ServiceWorker.url request)) "http" = true).
Proof.
  unfold ServiceWorker.onFetch.
  destruct (String.eqb_spec (ServiceWorker.method request) "GET") as [Hm|Hm];
    destruct (Str.startsWith _ "http") eqn:Hp; simpl; split;
    try (intros [H|H]; (congruence || reflexivity));
    try (intros H; (now destruct H) || (split; congruence)).
Qed.

Lemma fetch_listener_get_only_witness :
  let post :=
    ServiceWorker.mkRequest "POST"
      (ServiceWorker.mkURL "https://app.example/api/upload" "https:" "/api/upload")
      None in
  let extension :=
    ServiceWorker.mkRequest "GET"
      (ServiceWorker.mkURL "chrome-extension://abc/x.js" "chrome-extension:" "/x.js")
      None in
  let resp := ServiceWorker.mkResponse 200 "ok" in
  ServiceWorker.onFetch true post (Some resp) [] = (ServiceWorker.NotIntercepted, []) /\
  ServiceWorker.onFetch true extension (Some resp) []
    = (ServiceWorker.NotIntercepted, []).
Proof.
  intros post extension resp. split.
  - apply (proj1 (fetch_listener_get_only true post (Some resp) [])).
    left. discriminate.
  - apply (proj1 (fetch_listener_get_only true extension (Some resp) [])).
    right. reflexivity.
Defined.

(** * Further properties of the code *)

(** ** Rounding to four decimals *)

Lemma round4_error (m : Q) : (Qabs (Spec.round4 m - m) <= 1 # 20000)%Q.
Proof.
  unfold Spec.round4.
  pose proof (Qfloor_le (m * 10000 + (1 # 2))) as H1.
  pose proof (Qlt_floor (m * 10000 + (1 # 2))) as H2.
  rewrite inject_Z_plus in H2. change (inject_Z 1) with 1%Q in H2.
  set (x := inject_Z (Qfloor (m * 10000 + (1 # 2)))) in *.
  apply Qabs_Qle_condition.
  unfold Qdiv. change (/ 10000)%Q with (1 # 10000)%Q.
  split; lra.
Qed.

Lemma round4_compat (m m' : Q) : (m == m')%Q -> Spec.round4 m = Spec.round4 m'.
Proof.
  intros H. unfold Spec.round4. f_equal. f_equal. apply Qfloor_comp.
  rewrite H. reflexivity.
Qed.

Lemma round4_zero (m : Q) : (m == 0)%Q -> (Spec.round4 m == 0)%Q.
Proof. intros H. rewrite (round4_compat m 0 H). reflexivity. Qed.

(** ** The raw-PCM back end, continued *)

(** The entry of index [i]; the number of buckets is read off the result. *)
Lemma generatePeaks_ffmpeg_nth probed samples pd (i : nat) v :
  PeaksFfmpeg.generatePeaks probed (Ok samples) = Ok pd ->
  nth_error (peaks pd) i = Some v ->
  let spp := Spec.samplesPerBucket (Z.of_nat (length samples))
               (Z.of_nat (length (peaks pd))) in
  1 <= spp /\ v = PeaksFfmpeg.peakAt samples spp (Z.of_nat i).
Proof.
  intros Hgen Hv.
  apply generatePeaks_ffmpeg_inv in Hgen
    as (d & samples' & -> & [= <-] & _ & _ & Hp & _).
  cbv zeta in *.
  assert (Hi : (i < length (peaks pd))%nat) by (apply nth_error_Some; congruence).
  split; [unfold Spec.samplesPerBucket; lia|].
  rewrite Hp, nth_error_map in Hv.
  replace i with (Z.to_nat (Z.of_nat i)) in Hv at 1 by lia.
  rewrite nth_error_range in Hv by lia. simpl in Hv. injection Hv as <-.
  reflexivity.
Qed.

(** X1: every entry the raw-PCM back end returns is the rounding of the
    maximum magnitude of its window: [Infinity] when the window holds an
    infinite sample, and otherwise a finite, non-negative multiple of 1/10000
    that differs from the true maximum by at most 0.00005. *)
Theorem raw_peak_accuracy probed samples pd (i : nat) v :
  PeaksFfmpeg.generatePeaks probed (Ok samples) = Ok pd ->
  nth_error (peaks pd) i = Some v ->
  let total := Z.of_nat (length samples) in
  let spp := Spec.samplesPerBucket total (Z.of_nat (length (peaks pd))) in
  exists m,
    Spec.window_max samples (Z.of_nat i * spp)
      (Z.min ((Z.of_nat i + 1) * spp) total) m /\
    match m with
    | Fin q =>
        exists p,
          v = Fin p /\ (0 <= p)%Q /\ Spec.multiple_of_1e4 v /\
          (Qabs (p - q) <= 1 # 20000)%Q
    | Inf negative => negative = false /\ v = Inf false
    | NaN => False
    end.
Proof.
  intros Hgen Hv total spp.
  destruct (generatePeaks_ffmpeg_nth _ _ _ _ _ Hgen Hv) as (Hspp & ->).
  fold total spp in Hspp |- *.
  destruct (peakAt_spec samples spp (Z.of_nat i)) as (m & Hw & Hp); [lia | lia |].
  exists m. split.
  - replace ((Z.of_nat i + 1) * spp) with (Z.of_nat i * spp + spp) by lia. exact Hw.
  - pose proof (window_max_nonneg _ _ _ _ Hw) as Hm. rewrite Hp.
    destruct m as [q|t|]; [|subst t; split; reflexivity|exact Hm].
    exists (Spec.round4 q). split; [reflexivity|]. split; [|split].
    + apply round4_nonneg. exact Hm.
    + destruct (round4_multiple q) as (k & Hk). exists k. exact Hk.
    + apply round4_error.
Qed.

Lemma raw_peak_accuracy_witness :
  exists pd v m,
    PeaksFfmpeg.generatePeaks (Ok (Fin (1 # 64)))
      (Ok [Fin (33333 # 100000); Fin (-7 # 4); NaN; Fin (1 # 3)]) = Ok pd /\
    nth_error (peaks pd) 0 = Some v /\
    Spec.window_max [Fin (33333 # 100000); Fin (-7 # 4); NaN; Fin (1 # 3)] 0 2 m.
Proof.
  eexists.
  destruct (raw_peak_accuracy (Ok (Fin (1 # 64)))
              [Fin (33333 # 100000); Fin (-7 # 4); NaN; Fin (1 # 3)] _ 0%nat _
              ltac:(vm_compute; reflexivity) eq_refl)
    as (m & Hw & _).
  exists (Fin (17500 # 10000)), m. repeat split; [exact (proj1 Hw) | exact (proj2 Hw)].
Defined.

(** X2: when there are no more samples than buckets, each bucket holds one
    sample: entry [i] is the rounded magnitude of sample [i] while samples
    last ([Infinity] for an infinite sample, 0 for one that is [NaN]), and 0
    from there on. *)
Theorem raw_peaks_short_audio probed samples pd (i : nat) v :
  PeaksFfmpeg.generatePeaks probed (Ok samples) = Ok pd ->
  (length samples <= length (peaks pd))%nat ->
  nth_error (peaks pd) i = Some v ->
  match nth_error samples i with
  | Some (Fin q) => Spec.is_value v (Spec.round4 (Qabs q))
  | Some (Inf _) => v = Inf false
  | Some NaN | None => Spec.is_value v 0
  end.
Proof.
  intros Hgen Hshort Hv.
  destruct (generatePeaks_ffmpeg_nth _ _ _ _ _ Hgen Hv) as (_ & ->).
  assert (Hi : (i < length (peaks pd))%nat) by (apply nth_error_Some; congruence).
  assert (Hspp : Spec.samplesPerBucket (Z.of_nat (length samples))
                   (Z.of_nat (length (peaks pd))) = 1).
  { unfold Spec.samplesPerBucket.
    destruct (Z.eq_dec (Z.of_nat (length samples)) (Z.of_nat (length (peaks pd))))
      as [->|Hne].
    - rewrite Z.div_same by lia. reflexivity.
    - rewrite Z.div_small by lia. reflexivity. }
  rewrite Hspp.
  destruct (peakAt_spec samples 1 (Z.of_nat i)) as (m & Hw & ->); [lia | lia |].
  pose proof (window_max_nonneg _ _ _ _ Hw) as Hpos.
  destruct Hw as [Hall [(j & s & Hj & Hs & Hn & Hm)|Hm]].
  - assert (j = Z.of_nat i) by lia. subst j.
    rewrite Nat2Z.id in Hs. rewrite Hs.
    destruct s as [x|t|]; [| |congruence].
    + destruct m as [q|t|]; simpl in Hm |- *; [|tauto|tauto].
      rewrite (round4_compat _ _ Hm). reflexivity.
    + destruct m as [q|t'|]; simpl in Hm, Hpos |- *; [tauto| |tauto].
      subst t'. reflexivity.
  - destruct m as [q|t|]; simpl in Hm, Hpos |- *; [|tauto|tauto].
    destruct (nth_error samples i) as [s|] eqn:Hs;
      [|simpl; apply round4_zero; exact Hm].
    assert (Hin : Z.of_nat i * 1 <= Z.of_nat i <
                  Z.min (Z.of_nat i * 1 + 1) (Z.of_nat (length samples))).
    { assert (i < length samples)%nat by (apply nth_error_Some; congruence). lia. }
    specialize (Hall (Z.of_nat i) s Hin). rewrite Nat2Z.id in Hall.
    specialize (Hall Hs).
    destruct s as [x|t|].
    + specialize (Hall ltac:(discriminate)). simpl in Hall |- *.
      rewrite (round4_compat q (Qabs x)); [reflexivity|].
      rewrite Hm. symmetry.
      apply Qle_antisym; [rewrite <- Hm; exact Hall | apply Qabs_nonneg].
    + specialize (Hall ltac:(discriminate)). simpl in Hall. discriminate.
    + simpl. apply round4_zero. exact Hm.
Qed.

Lemma raw_peaks_short_audio_witness :
  exists pd v,
    PeaksFfmpeg.generatePeaks (Ok (Fin (1 # 32))) (Ok [Fin (-1 # 3); NaN]) = Ok pd /\
    nth_error (peaks pd) 1 = Some v /\
    Spec.is_value v 0.
Proof.
  eexists. eexists. split; [vm_compute; reflexivity|]. split; [reflexivity|].
  apply (raw_peaks_short_audio (Ok (Fin (1 # 32))) [Fin (-1 # 3); NaN] _ 1%nat _
           ltac:(vm_compute; reflexivity) ltac:(simpl; lia) eq_refl).
Defined.

(** X3: a bucket whose window holds only samples that are zero (or [NaN])
    is 0: silence is never turned into a visible peak. *)
Theorem raw_peaks_silence probed samples pd (i : nat) v :
  PeaksFfmpeg.generatePeaks probed (Ok samples) = Ok pd ->
  nth_error (peaks pd) i = Some v ->
  (let spp := Spec.samplesPerBucket (Z.of_nat (length samples))
                (Z.of_nat (length (peaks pd))) in
   forall j s, Z.of_nat i * spp <= j < (Z.of_nat i + 1) * spp ->
     nth_error samples (Z.to_nat j) = Some s -> Spec.abs_at_most 0 s) ->
  Spec.is_value v 0.
Proof.
  intros Hgen Hv Hsilent.
  destruct (generatePeaks_ffmpeg_nth _ _ _ _ _ Hgen Hv) as (Hspp & ->).
  cbv zeta in *.
  set (spp := Spec.samplesPerBucket _ _) in *.
  destruct (peakAt_spec samples spp (Z.of_nat i)) as (m & Hw & ->); [lia | lia |].
  destruct Hw as [_ [(j & s & Hj & Hs & Hn & Hm)|Hm]].
  - specialize (Hsilent j s ltac:(lia) Hs).
    destruct s as [x|t|]; simpl in Hsilent; [|tauto|congruence].
    destruct m as [q|t|]; simpl in Hm |- *; [|tauto|tauto].
    apply round4_zero. rewrite Hm.
    apply Qle_antisym; [exact Hsilent | apply Qabs_nonneg].
  - destruct m as [q|t|]; simpl in Hm |- *; [|tauto|tauto].
    apply round4_zero. exact Hm.
Qed.

Lemma raw_peaks_silence_witness :
  exists pd v,
    PeaksFfmpeg.generatePeaks (Ok (Fin (1 # 64)))
      (Ok [Fin 0; NaN; Fin (1 # 2); Fin (1 # 4)]) = Ok pd /\
    nth_error (peaks pd) 0 = Some v /\ Spec.is_value v 0.
Proof.
  eexists. eexists. split; [vm_compute; reflexivity|]. split; [reflexivity|].
  apply (raw_peaks_silence (Ok (Fin (1 # 64)))
           [Fin 0; NaN; Fin (1 # 2); Fin (1 # 4)] _ 0%nat _
           ltac:(vm_compute; reflexivity) eq_refl).
  intros spp j s Hj.
  assert (Hs : spp = 2) by reflexivity. rewrite Hs in Hj.
  assert (j = 0 \/ j = 1) as [-> | ->] by lia; simpl; intros [= <-]; simpl;
    [discriminate | exact I].
Defined.



Lemma fold_left_ext_in {A B} (f g : A -> B -> A) (l : list B) (a : A) :
  (forall x y, In y l -> f x y = g x y) -> fold_left f l a = fold_left g l a.
Proof.
  revert a. induction l as [|y l IH]; intros a H; simpl; [reflexivity|].
  rewrite H by now left. apply IH. intros x z Hz. apply H. now right.
Qed.

(** X5: the buckets cover the first [totalPeaks * samplesPerPeak] samples
    only: a sample array of the same length that agrees there with the one
    decoded gives the same result, so what the remaining samples at the end
    of the recording hold never shows in the peaks. *)
Theorem raw_peaks_ignore_tail probed (samples samples' : list number) pd :
  PeaksFfmpeg.generatePeaks probed (Ok samples) = Ok pd ->
  length samples = length samples' ->
  (forall j : nat,
     Z.of_nat j <
       Z.of_nat (length (peaks pd)) *
       Spec.samplesPerBucket (Z.of_nat (length samples))
         (Z.of_nat (length (peaks pd))) ->
     nth_error samples j = nth_error samples' j) ->
  PeaksFfmpeg.generatePeaks probed (Ok samples') = Ok pd.
Proof.
  intros Hgen Hlen Hagree.
  destruct (generatePeaks_ffmpeg_inv _ _ _ Hgen)
    as (d & samples0 & -> & [= <-] & Hn & _ & Hp & _).
  cbv zeta in *.
  set (n := Z.of_nat (length (peaks pd))) in *.
  set (spp := Spec.samplesPerBucket (Z.of_nat (length samples)) n) in *.
  rewrite <- Hgen.
  rewrite (generatePeaks_ffmpeg_eq (Fin d) n samples Hn).
  rewrite (generatePeaks_ffmpeg_eq (Fin d) n samples' Hn).
  rewrite <- Hlen. fold spp. cbv zeta.
  assert (Hspp : 1 <= spp) by (unfold spp, Spec.samplesPerBucket; lia).
  assert (Hmap : map (PeaksFfmpeg.peakAt samples' spp) (range 0 n) =
                 map (PeaksFfmpeg.peakAt samples spp) (range 0 n)).
  { apply map_ext_in. intros i Hi. apply in_range in Hi; [|lia].
    unfold PeaksFfmpeg.peakAt, PeaksFfmpeg.bucketMax. rewrite <- Hlen.
    f_equal. f_equal. f_equal.
    apply fold_left_ext_in. intros x j Hj. apply in_range in Hj; [|nia].
    unfold PeaksFfmpeg.sample. rewrite <- (Hagree (Z.to_nat j)) by nia.
    reflexivity. }
  rewrite Hmap. reflexivity.
Qed.

Lemma raw_peaks_ignore_tail_witness :
  exists pd,
    PeaksFfmpeg.generatePeaks (Ok (Fin (1 # 32)))
      (Ok [Fin (1 # 2); Fin (-3 # 4); Fin (1 # 8); Fin (1 # 4); Fin 0;
           Fin (1 # 3); Fin 0; Fin (1 # 5); Fin (9 # 10)]) = Ok pd /\
    length (peaks pd) = 4%nat.
Proof.
  eexists. split.
  - apply (raw_peaks_ignore_tail (Ok (Fin (1 # 32)))
             [Fin (1 # 2); Fin (-3 # 4); Fin (1 # 8); Fin (1 # 4); Fin 0;
              Fin (1 # 3); Fin 0; Fin (1 # 5); Inf false]
             [Fin (1 # 2); Fin (-3 # 4); Fin (1 # 8); Fin (1 # 4); Fin 0;
              Fin (1 # 3); Fin 0; Fin (1 # 5); Fin (9 # 10)] _
             ltac:(vm_compute; reflexivity) eq_refl).
    intros j Hj.
    assert (Hb : Z.of_nat j < 8) by exact Hj.
    do 8 (destruct j as [|j]; [reflexivity|]). lia.
  - reflexivity.
Defined.

(** ** The extrema-pair back end, continued *)

(** X6: for a data array of even length the extrema-pair back end returns
    one entry per (min, max) pair, [data.length / 2] in all, and entry [k] is
    the larger of the two magnitudes of pair [k], divided by 128 and rounded
    to four decimals; no entry is [NaN]. *)
Theorem extrema_peaks_even_length wf pd :
  Nat.even (length (PeaksAudiowaveform.data wf)) = true ->
  PeaksAudiowaveform.generatePeaks (Ok wf) = Ok pd ->
  length (peaks pd) = Nat.div2 (length (PeaksAudiowaveform.data wf)) /\
  forall k : nat,
    (k < Nat.div2 (length (PeaksAudiowaveform.data wf)))%nat ->
    exists a b,
      nth_error (PeaksAudiowaveform.data wf) (2 * k) = Some a /\
      nth_error (PeaksAudiowaveform.data wf) (2 * k + 1) = Some b /\
      nth_error (peaks pd) k =
        Some (Fin (Spec.round4 (Spec.larger (Qabs a) (Qabs b) / 128))).
Proof.
  intros Heven Hgen.
  apply generatePeaks_audiowaveform_inv in Hgen as (wf' & [= <-] & _ & Hp & _).
  set (data := PeaksAudiowaveform.data wf) in *.
  apply Nat.even_spec in Heven as (h & Hn).
  assert (Hh : Nat.div2 (length data) = h).
  { rewrite Nat.div2_div, Hn. replace (2 * h)%nat with (0 + h * 2)%nat by lia.
    rewrite Nat.div_add by lia. reflexivity. }
  assert (HS : Nat.div2 (S (length data)) = h).
  { rewrite Nat.div2_div, Hn. replace (S (2 * h)) with (1 + h * 2)%nat by lia.
    rewrite Nat.div_add by lia. reflexivity. }
  rewrite Hh. split.
  - rewrite Hp, List.length_map, length_pairIndices. exact HS.
  - intros k Hk.
    destruct (nth_error data (2 * k)) as [a|] eqn:Ha;
      [|apply nth_error_None in Ha; lia].
    destruct (nth_error data (2 * k + 1)) as [b|] eqn:Hb;
      [|apply nth_error_None in Hb; lia].
    exists a, b. split; [reflexivity|]. split; [reflexivity|].
    rewrite Hp, nth_error_map, nth_error_pairIndices by lia. simpl.
    rewrite (peakOfPair_complete data k a b Ha Hb). reflexivity.
Qed.

Lemma extrema_peaks_even_length_witness :
  exists pd,
    PeaksAudiowaveform.generatePeaks
      (Ok (PeaksAudiowaveform.mkAudiowaveformData
             2 1 44100 882 8 2 [-128; 127; -3; 40]%Q)) = Ok pd /\
    length (peaks pd) = 2%nat.
Proof.
  eexists. split; [reflexivity|].
  apply (proj1 (extrema_peaks_even_length
                  (PeaksAudiowaveform.mkAudiowaveformData
                     2 1 44100 882 8 2 [-128; 127; -3; 40]%Q) _ eq_refl eq_refl)).
Defined.

(** X7: the extrema-pair back end returns exactly when the tool succeeded
    with a non-empty data array, and then with at least one entry; any other
    outcome, whatever its cause, is reported as the audiowaveform error. *)
Theorem extrema_peaks_success tool :
  (forall pd,
     PeaksAudiowaveform.generatePeaks tool = Ok pd ->
     (exists wf, tool = Ok wf /\ PeaksAudiowaveform.data wf <> []) /\
     (1 <= length (peaks pd))%nat) /\
  (forall wf,
     tool = Ok wf -> PeaksAudiowaveform.data wf <> [] ->
     exists pd, PeaksAudiowaveform.generatePeaks tool = Ok pd) /\
  ((forall wf, tool = Ok wf -> PeaksAudiowaveform.data wf = []) ->
   PeaksAudiowaveform.generatePeaks tool = Err (ToolError "audiowaveform")).
Proof.
  split; [|split].
  - intros pd Hgen.
    destruct (generatePeaks_audiowaveform_inv _ _ Hgen) as (wf & -> & Hne & Hp & _).
    split; [exists wf; auto|].
    rewrite Hp, List.length_map, length_pairIndices.
    destruct (PeaksAudiowaveform.data wf) as [|x [|y l]]; [congruence | simpl; lia |].
    simpl. lia.
  - intros wf -> Hne. unfold PeaksAudiowaveform.generatePeaks,
      PeaksAudiowaveform.generateWaveformData.
    destruct (PeaksAudiowaveform.data wf) eqn:Hd; [congruence|].
    simpl. eexists. reflexivity.
  - intros Hempty. unfold PeaksAudiowaveform.generatePeaks,
      PeaksAudiowaveform.generateWaveformData.
    destruct tool as [wf|e]; [|reflexivity].
    rewrite (Hempty wf eq_refl). reflexivity.
Qed.

Lemma extrema_peaks_success_witness :
  (exists pd,
     PeaksAudiowaveform.generatePeaks
       (Ok (PeaksAudiowaveform.mkAudiowaveformData 2 1 44100 882 8 1 [-5; 7]%Q))
     = Ok pd) /\
  PeaksAudiowaveform.generatePeaks
    (Ok (PeaksAudiowaveform.mkAudiowaveformData 2 1 44100 882 8 0 []))
  = Err (ToolError "audiowaveform").
Proof.
  split.
  - apply (proj1 (proj2 (extrema_peaks_success
             (Ok (PeaksAudiowaveform.mkAudiowaveformData
                    2 1 44100 882 8 1 [-5; 7]%Q)))) _ eq_refl).
    discriminate.
  - apply (proj2 (proj2 (extrema_peaks_success
             (Ok (PeaksAudiowaveform.mkAudiowaveformData 2 1 44100 882 8 0 []))))).
    intros wf [= <-]. reflexivity.
Defined.

(** ** Files written by the pipeline *)

Lemma String_append_cancel_l (a b c : string) : a +:+ b = a +:+ c -> b = c.
Proof. induction a as [|x a IH]; simpl; [auto|]. intros [= H]. auto. Qed.

(** The audio file and its peaks file are one path only for a [.json] audio. *)
Lemma jsonPath_ne (p : Path.ParsedPath) :
  Path.ext p <> ".json" ->
  Path.join (Path.dir p) (Path.name p +:+ ".json") <> Path.format p.
Proof.
  intros Hext H. unfold Path.format, Path.join in H.
  do 3 apply String_append_cancel_l in H. congruence.
Qed.

Lemma jsonPath_ne_temp (p : Path.ParsedPath) :
  Path.ext p = ".mp3" ->
  Path.join (Path.dir p) (Path.name p +:+ ".json") <> AudioReencode.tempPath p.
Proof.
  intros Hext H. apply (f_equal String.length) in H.
  unfold AudioReencode.tempPath, Path.join in H. rewrite Hext in H.
  repeat rewrite String_length_append in H. simpl in H. lia.
Qed.

(** X8: [generateAndSavePeaks] writes one file, the peaks object, at the
    path of the audio file with its extension replaced by [.json], and
    returns that path: reading the path back gives the peaks, every other
    path holds what it held (the audio file too, unless its own extension is
    [.json]); when peak generation fails the disk is not touched at all. *)
Theorem generateAndSavePeaks_effect gen (p : Path.ParsedPath) (d : Fs.Disk) :
  let jsonPath := Path.join (Path.dir p) (Path.name p +:+ ".json") in
  match gen with
  | Ok pd =>
      exists d',
        generateAndSavePeaks gen p d = (Ok jsonPath, d') /\
        FsPromises.readFile jsonPath d' =
          (Ok (Fs.PeaksJson pd),
           {| Fs.files := Fs.files d';
              Fs.journal := Fs.journal d' ++ [Fs.CallReadFile jsonPath] |}) /\
        (forall q, q <> jsonPath -> Fs.files d' !! q = Fs.files d !! q) /\
        (Path.ext p <> ".json" ->
         Fs.files d' !! Path.format p = Fs.files d !! Path.format p)
  | Err e => generateAndSavePeaks gen p d = (Err e, d)
  end.
Proof.
  intros jsonPath. destruct gen as [pd|e]; [|reflexivity].
  eexists. split; [reflexivity|]. split; [|split].
  - apply readFile_present. simpl. apply lookup_insert_eq.
  - intros q Hq. simpl. apply lookup_insert_ne.
    intros Heq. apply Hq. symmetry. exact Heq.
  - intros Hext. simpl. apply lookup_insert_ne. apply jsonPath_ne. exact Hext.
Qed.

Lemma generateAndSavePeaks_effect_witness :
  let p := Path.mkPath "/srv/data/uploads" "a1" ".mp3" in
  let d := {| Fs.files := {[ "/srv/data/uploads/a1.mp3" := Fs.Raw [Byte.x49] ]};
              Fs.journal := [] |} in
  let pd := mkPeaksData [Fin 0] (Fin 1) 100 1 in
  exists d',
    generateAndSavePeaks (Ok pd) p d = (Ok "/srv/data/uploads/a1.json", d') /\
    Fs.files d' !! "/srv/data/uploads/a1.mp3" = Some (Fs.Raw [Byte.x49]).
Proof.
  intros p d pd.
  destruct (generateAndSavePeaks_effect (Ok pd) p d) as (d' & Hrun & _ & _ & Haudio).
  exists d'. split; [exact Hrun|].
  etransitivity; [apply Haudio; discriminate | reflexivity].
Defined.

(** What [replaceWithCbrMp3] does to the disk, whatever the encoder does. *)
Lemma replaceWithCbrMp3_effect ffmpeg (filePath : Path.ParsedPath)
    (bitrate sampleRate : Z) (d : Fs.Disk) :
  let orig := Path.format filePath in
  let tmp := AudioReencode.tempPath filePath in
  let run := AudioReencode.replaceWithCbrMp3 ffmpeg filePath bitrate sampleRate d in
  (forall q, q <> orig -> q <> tmp ->
     Fs.files (snd run) !! q = Fs.files d !! q) /\
  match fst run with
  | Ok _ =>
      Fs.files (snd run) !! tmp = None /\
      exists out,
        ffmpeg = AudioReencode.Encoded out /\
        Fs.files (snd run) !! orig = Some (Fs.Raw out)
  | Err _ => Fs.files (snd run) !! orig = Fs.files d !! orig
  end.
Proof.
  intros orig tmp run.
  assert (Hne : tmp <> orig) by apply tempPath_ne.
  assert (Hfail :
    (forall out, ffmpeg <> AudioReencode.Encoded out) \/ Fs.files d !! orig = None ->
    exists fs' j',
      run = (Err (ToolError "ffmpeg"), {| Fs.files := fs'; Fs.journal := j' |}) /\
      forall q, q <> tmp -> fs' !! q = Fs.files d !! q).
  { intros H.
    destruct (reencode_failed ffmpeg orig tmp bitrate sampleRate d H)
      as (fs' & Hre & Hsame).
    exists fs', (Fs.journal d ++ [Fs.CallEncode orig tmp]). split; [|exact Hsame].
    subst run. unfold AudioReencode.replaceWithCbrMp3. fold orig tmp.
    unfold Fs.bind at 1. rewrite Hre. reflexivity. }
  destruct (Fs.files d !! orig) as [x|] eqn:Hx.
  - destruct ffmpeg as [out|part].
    + subst run. rewrite (replaceWithCbrMp3_done out filePath _ _ d x Hx).
      fold orig tmp. simpl. split; [|split].
      * intros q Hq1 Hq2. rewrite lookup_delete_ne by congruence.
        rewrite lookup_insert_ne by congruence.
        rewrite lookup_delete_ne by congruence.
        apply lookup_insert_ne. congruence.
      * apply lookup_delete_eq.
      * exists out. split; [reflexivity|].
        rewrite lookup_delete_ne by congruence. apply lookup_insert_eq.
    + destruct Hfail as (fs' & j' & Hrun & Hsame);
        [left; intros out; discriminate|].
      rewrite Hrun. cbn [fst snd Fs.files]. split.
      * intros q _ Hq. apply Hsame. exact Hq.
      * rewrite Hsame by congruence. exact Hx.
  - destruct Hfail as (fs' & j' & Hrun & Hsame); [right; reflexivity|].
    rewrite Hrun. cbn [fst snd Fs.files]. split.
    + intros q _ Hq. apply Hsame. exact Hq.
    + rewrite Hsame by congruence. exact Hx.
Qed.

(** X9: whatever the encoder does, [replaceWithCbrMp3] can only change two
    paths, the original and the temporary one.  When it returns, the
    original holds the encoder output and nothing is left at the temporary
    path, not even a file that was there before the call; when it throws the
    error of the encoder, the original holds what it held. *)
Theorem replaceWithCbrMp3_frame ffmpeg (filePath : Path.ParsedPath)
    (bitrate sampleRate : Z) (d : Fs.Disk) :
  let orig := Path.format filePath in
  let tmp := AudioReencode.tempPath filePath in
  let run := AudioReencode.replaceWithCbrMp3 ffmpeg filePath bitrate sampleRate d in
  (forall q, q <> orig -> q <> tmp ->
     Fs.files (snd run) !! q = Fs.files d !! q) /\
  (fst run = Ok tt ->
   Fs.files (snd run) !! tmp = None /\
   exists out,
     ffmpeg = AudioReencode.Encoded out /\
     Fs.files (snd run) !! orig = Some (Fs.Raw out)) /\
  (fst run = Err (ToolError "ffmpeg") ->
   Fs.files (snd run) !! orig = Fs.files d !! orig).
Proof.
  intros orig tmp run.
  destruct (replaceWithCbrMp3_effect ffmpeg filePath bitrate sampleRate d)
    as [Hframe Hend].
  fold orig tmp run in Hframe, Hend.
  split; [exact Hframe|].
  destruct (fst run) as [u|e]; split; try discriminate; intros _; exact Hend.
Qed.

Lemma replaceWithCbrMp3_frame_witness :
  let p := Path.mkPath "/srv/data/uploads" "a1" ".mp3" in
  let d := {| Fs.files := {[ "/srv/data/uploads/a1.mp3" := Fs.Raw [Byte.x49];
                             "/srv/data/uploads/b2.mp3" := Fs.Raw [Byte.x50] ]};
              Fs.journal := [] |} in
  Fs.files (snd (AudioReencode.replaceWithCbrMp3
                   (AudioReencode.Encoded [Byte.xff]) p 128 44100 d))
    !! "/srv/data/uploads/b2.mp3" = Some (Fs.Raw [Byte.x50]).
Proof.
  intros p d.
  etransitivity.
  - apply (proj1 (replaceWithCbrMp3_frame
                    (AudioReencode.Encoded [Byte.xff]) p 128 44100 d));
      discriminate.
  - reflexivity.
Defined.

(** ** The peaks route, continued *)

(** With access granted the handler is its serving part. *)
Lemma GET_allowed (uploads : string) (flag : bool) (audioId : string)
    (session : option Http.Session) gen (w : Http.World) (audio : Http.Audio) :
  Http.db w !! audioId = Some audio ->
  Spec.isOwner session audio \/
  (Http.isPublic audio = true /\ (flag = true -> is_Some session)) ->
  PeaksRoute.GET uploads flag audioId session gen w =
  PeaksRoute.servePeaks uploads gen audio w.
Proof.
  intros Hdb Hacc. unfold PeaksRoute.GET. rewrite Hdb.
  destruct Hacc as [(s & -> & Hs)|[Hpub Hsess]].
  - unfold PeaksRoute.isCreator. rewrite Hs, String.eqb_refl.
    rewrite orb_true_r, andb_false_r. reflexivity.
  - rewrite Hpub. simpl.
    destruct flag; simpl; [|reflexivity].
    destruct session as [s|]; [reflexivity|].
    destruct (Hsess eq_refl) as [x Hx]. discriminate.
Qed.

Lemma stat_true (path : string) (d : Fs.Disk) (x : Fs.FileData) :
  Fs.files d !! path = Some x -> FsPromises.stat path d = true.
Proof.
  intros H. unfold FsPromises.stat. apply bool_decide_eq_true. eauto.
Qed.

Lemma stat_false (path : string) (d : Fs.Disk) :
  Fs.files d !! path = None -> FsPromises.stat path d = false.
Proof.
  intros H. unfold FsPromises.stat. apply bool_decide_eq_false.
  rewrite H. intros [x Hx]. discriminate.
Qed.

(** The serving part when the peaks file is there. *)
Lemma servePeaks_hit (uploads : string) gen audio (w : Http.World) content :
  let peaksPath :=
    Path.join uploads (Path.name (Http.filePath audio) +:+ ".json") in
  Fs.files (Http.disk w) !! peaksPath = Some content ->
  PeaksRoute.servePeaks uploads gen audio w =
  ({| Http.status := 200; Http.body := Http.utf8 content;
      Http.cacheControl := Some "public, max-age=31536000, immutable" |},
   Http.withDisk w
     {| Fs.files := Fs.files (Http.disk w);
        Fs.journal := Fs.journal (Http.disk w) ++ [Fs.CallReadFile peaksPath] |}).
Proof.
  intros peaksPath Hc. unfold PeaksRoute.servePeaks. fold peaksPath.
  rewrite (stat_true peaksPath _ _ Hc).
  rewrite (readFile_present peaksPath _ _ Hc). reflexivity.
Qed.

(** A stored path without a directory resolves into the uploads directory,
    where its peaks file is looked up; one with a directory does not. *)
Lemma resolve_bare (uploads : string) (p : Path.ParsedPath) :
  Path.dir p = "" ->
  Path.resolve uploads p = Path.mkPath uploads (Path.name p) (Path.ext p).
Proof. intros H. unfold Path.resolve. rewrite H. reflexivity. Qed.


(** X10: when the peaks file of an audio is on disk and the access check
    passes, GET answers 200 with the content of that file read as UTF-8 text
    (the JSON text itself when the file holds a peaks object the application
    wrote) and the year-long immutable cache header; peak generation is not
    called (its outcome is irrelevant), and neither the files nor the table
    nor the console change. *)
Theorem peaks_route_cache_hit (uploads : string) (flag : bool) (audioId : string)
    (session : option Http.Session) gen (w : Http.World) (audio : Http.Audio)
    content :
  Http.db w !! audioId = Some audio ->
  Spec.isOwner session audio \/
  (Http.isPublic audio = true /\ (flag = true -> is_Some session)) ->
  Fs.files (Http.disk w)
    !! Path.join uploads (Path.name (Http.filePath audio) +:+ ".json")
    = Some content ->
  let run := PeaksRoute.GET uploads flag audioId session gen w in
  fst run =
    {| Http.status := 200; Http.body := Http.utf8 content;
       Http.cacheControl := Some "public, max-age=31536000, immutable" |} /\
  (forall pd, content = Fs.PeaksJson pd ->
     Http.body (fst run) = Http.FileBody (Fs.PeaksJson pd)) /\
  Fs.files (Http.disk (snd run)) = Fs.files (Http.disk w) /\
  Http.db (snd run) = Http.db w /\
  Http.console (snd run) = Http.console w.
Proof.
  intros Hdb Hacc Hc run. subst run.
  rewrite (GET_allowed _ _ _ _ _ _ _ Hdb Hacc).
  rewrite (servePeaks_hit uploads gen audio w content Hc).
  split; [reflexivity|]. split; [|repeat split].
  intros pd ->. reflexivity.
Qed.

Lemma peaks_route_cache_hit_witness :
  let audio := Http.mkAudio "a1" "Song" None "song.mp3"
                 (Path.mkPath "uploads/seed" "a1" ".mp3") "u1" true in
  let pd := mkPeaksData [Fin 0] (Fin 1) 100 1 in
  let w := Http.mkWorld
             (Fs.mkDisk {[ "/srv/data/uploads/a1.json" := Fs.PeaksJson pd ]} [])
             {[ "a1" := audio ]} [] in
  Http.body (fst (PeaksRoute.GET "/srv/data/uploads" false "a1" None
                    (Err (ToolError "ffprobe")) w)) =
  Http.FileBody (Fs.PeaksJson pd).
Proof.
  intros audio pd w.
  apply (proj1 (proj2 (peaks_route_cache_hit "/srv/data/uploads" false "a1" None
                    (Err (ToolError "ffprobe")) w audio (Fs.PeaksJson pd)
                    eq_refl
                    (or_intror (conj eq_refl (fun H => False_ind _ (diff_false_true H))))
                    eq_refl)) pd eq_refl).
Defined.

(** The serving part when the peaks file is missing, the audio file is on
    disk and generation succeeds: the peaks are written next to the audio
    file and the peaks path is read. *)
Lemma servePeaks_generate (uploads : string) audio (w : Http.World) pd bytes :
  let peaksPath :=
    Path.join uploads (Path.name (Http.filePath audio) +:+ ".json") in
  let audioFullPath := Path.resolve uploads (Http.filePath audio) in
  let jsonPath :=
    Path.join (Path.dir audioFullPath) (Path.name (Http.filePath audio) +:+ ".json") in
  Fs.files (Http.disk w) !! peaksPath = None ->
  Fs.files (Http.disk w) !! Path.format audioFullPath = Some bytes ->
  PeaksRoute.servePeaks uploads (Ok pd) audio w =
  let written :=
    Http.withDisk w
      {| Fs.files := <[jsonPath := Fs.PeaksJson pd]> (Fs.files (Http.disk w));
         Fs.journal :=
           Fs.journal (Http.disk w) ++
           [Fs.CallWriteFile jsonPath (Fs.PeaksJson pd)] |} in
  match FsPromises.readFile peaksPath (Http.disk written) with
  | (Ok fileBuffer, d) =>
      ({| Http.status := 200; Http.body := Http.utf8 fileBuffer;
          Http.cacheControl := Some "public, max-age=31536000, immutable" |},
       Http.withDisk written d)
  | (Err _, d) =>
      (Http.respond 500 (Http.Text "Internal Server Error"),
       Http.log (Http.Error "Error serving peaks file:") (Http.withDisk written d))
  end.
Proof.
  intros peaksPath audioFullPath jsonPath Hmiss Haudio.
  unfold PeaksRoute.servePeaks. fold peaksPath audioFullPath.
  rewrite (stat_false peaksPath _ Hmiss).
  rewrite (stat_true (Path.format audioFullPath) _ _ Haudio).
  unfold generateAndSavePeaks.
  change (Path.name audioFullPath) with (Path.name (Http.filePath audio)).
  fold jsonPath. unfold Fs.bind. rewrite writeFile_eq. cbn [Fs.ret].
  reflexivity.
Qed.

(** X11: for an audio stored under a bare file name, as the upload route
    stores it: when the peaks file is missing, the audio file is on disk and
    peak generation succeeds, GET answers 200 with the generated peaks and
    leaves them in the peaks file; a second request then gets the same
    answer from the file whatever peak generation would do now, and writes
    nothing. *)
Theorem peaks_route_generate_once (uploads : string) (flag : bool)
    (audioId : string) (session : option Http.Session) (w : Http.World)
    (audio : Http.Audio) pd bytes :
  Http.db w !! audioId = Some audio ->
  Spec.isOwner session audio \/
  (Http.isPublic audio = true /\ (flag = true -> is_Some session)) ->
  Path.dir (Http.filePath audio) = "" ->
  let peaksPath :=
    Path.join uploads (Path.name (Http.filePath audio) +:+ ".json") in
  let audioPath :=
    Path.join uploads
      (Path.name (Http.filePath audio) +:+ Path.ext (Http.filePath audio)) in
  Fs.files (Http.disk w) !! peaksPath = None ->
  Fs.files (Http.disk w) !! audioPath = Some bytes ->
  let answer :=
    {| Http.status := 200; Http.body := Http.FileBody (Fs.PeaksJson pd);
       Http.cacheControl := Some "public, max-age=31536000, immutable" |} in
  let first := PeaksRoute.GET uploads flag audioId session (Ok pd) w in
  fst first = answer /\
  Fs.files (Http.disk (snd first)) =
    <[peaksPath := Fs.PeaksJson pd]> (Fs.files (Http.disk w)) /\
  forall gen',
    let second := PeaksRoute.GET uploads flag audioId session gen' (snd first) in
    fst second = answer /\
    Fs.files (Http.disk (snd second)) = Fs.files (Http.disk (snd first)).
Proof.
  intros Hdb Hacc Hbare peaksPath audioPath Hmiss Haudio answer first.
  assert (Hfirst : first =
    (answer,
     Http.withDisk w
       {| Fs.files := <[peaksPath := Fs.PeaksJson pd]> (Fs.files (Http.disk w));
          Fs.journal :=
            (Fs.journal (Http.disk w) ++
             [Fs.CallWriteFile peaksPath (Fs.PeaksJson pd)]) ++
            [Fs.CallReadFile peaksPath] |})).
  { subst first. rewrite (GET_allowed _ _ _ _ _ _ _ Hdb Hacc).
    rewrite (servePeaks_generate uploads audio w pd bytes Hmiss);
      rewrite (resolve_bare uploads _ Hbare); [|exact Haudio].
    cbn [Path.dir]. fold peaksPath. cbv zeta.
    rewrite (readFile_present peaksPath _ (Fs.PeaksJson pd));
      [reflexivity|]. simpl. apply lookup_insert_eq. }
  rewrite Hfirst. cbn [fst snd]. split; [reflexivity|]. split; [reflexivity|].
  intros gen'. cbv zeta.
  assert (Hdb' : Http.db (Http.withDisk w
       {| Fs.files := <[peaksPath := Fs.PeaksJson pd]> (Fs.files (Http.disk w));
          Fs.journal :=
            (Fs.journal (Http.disk w) ++
             [Fs.CallWriteFile peaksPath (Fs.PeaksJson pd)]) ++
            [Fs.CallReadFile peaksPath] |}) !! audioId = Some audio) by exact Hdb.
  rewrite (GET_allowed _ _ _ _ _ _ _ Hdb' Hacc).
  rewrite (servePeaks_hit uploads gen' audio _ (Fs.PeaksJson pd)).
  - split; reflexivity.
  - simpl. apply lookup_insert_eq.
Qed.

Lemma peaks_route_generate_once_witness :
  let audio := Http.mkAudio "a1" "Song" None "song.mp3"
                 (Path.mkPath "" "a1" ".mp3") "u1" true in
  let pd := mkPeaksData [Fin 0] (Fin 1) 100 1 in
  let w := Http.mkWorld
             (Fs.mkDisk {[ "/srv/data/uploads/a1.mp3" := Fs.Raw [Byte.x49] ]} [])
             {[ "a1" := audio ]} [] in
  let first := PeaksRoute.GET "/srv/data/uploads" false "a1" None (Ok pd) w in
  Http.status (fst first) = 200 /\
  Http.status (fst (PeaksRoute.GET "/srv/data/uploads" false "a1" None
                      (Err (ToolError "ffprobe")) (snd first))) = 200.
Proof.
  intros audio pd w first.
  destruct (peaks_route_generate_once "/srv/data/uploads" false "a1" None w audio
              pd (Fs.Raw [Byte.x49]) eq_refl
              (or_intror (conj eq_refl (fun H => False_ind _ (diff_false_true H))))
              eq_refl eq_refl eq_refl) as (H1 & _ & H2).
  split.
  - subst first. rewrite H1. reflexivity.
  - destruct (H2 (Err (ToolError "ffprobe"))) as [H3 _].
    subst first. rewrite H3. reflexivity.
Defined.






(** ** The upload route, continued *)

Lemma tryWarn_disk (step : Fs.io unit) (msg : string) (w : Http.World) :
  Http.disk (UploadRoute.tryWarn step msg w) = snd (step (Http.disk w)).
Proof.
  unfold UploadRoute.tryWarn. destruct (step (Http.disk w)) as [[u|e] d']; reflexivity.
Qed.

(** The files a validated upload leaves on disk by the time it reaches
    [db.audio.create]. *)
Lemma POST_validated_world (uploads : string) (isPublicDefault : bool)
    session formData (newId : string) ffmpeg gen (w : Http.World)
    (userId name : string) file :
  Spec.passesValidation session formData userId name file ->
  let row :=
    {| Http.id := newId; Http.name := name;
       Http.description := UploadRoute.form_description formData;
       Http.originalFileName := UploadRoute.file_name file;
       Http.filePath := Path.mkPath "" newId ".mp3";
       Http.createdById := userId;
       Http.isPublic := isPublicDefault |} in
  let audioPath := Path.join uploads (newId +:+ ".mp3") in
  let peaksPath := Path.join uploads (newId +:+ ".json") in
  exists w3,
    Http.db w3 = Http.db w /\
    Fs.files (Http.disk w3) !! audioPath =
      Some (Fs.Raw match ffmpeg with
                   | AudioReencode.Encoded out => out
                   | AudioReencode.EncoderFailed _ => UploadRoute.bytes file
                   end) /\
    Fs.files (Http.disk w3) !! peaksPath =
      match gen with
      | Ok pd => Some (Fs.PeaksJson pd)
      | Err _ => Fs.files (Http.disk w) !! peaksPath
      end /\
    UploadRoute.POST uploads isPublicDefault session formData newId ffmpeg gen w =
      match UploadRoute.db_audio_create row w3 with
      | (Ok audio, w') => (Http.respond 200 (Http.JsonUploaded (Http.id audio)), w')
      | (Err _, w') =>
          (Http.respond 500 (Http.JsonError "Upload failed"),
           Http.log (Http.Error "File upload error:") w')
      end.
Proof.
  intros (Hu & Hn & Hf & Hsz & Hext) row audioPath peaksPath.
  unfold UploadRoute.POST. rewrite Hu, Hn, Hf, Hext.
  replace (UploadRoute.maxSize <? UploadRoute.size file) with false
    by (symmetry; apply Z.ltb_ge; exact Hsz).
  change (negb (".mp3" =? ".mp3")%string) with false. cbv iota zeta.
  set (p := Path.mkPath uploads newId ".mp3").
  change audioPath with (Path.format p).
  change peaksPath with (Path.join (Path.dir p) (Path.name p +:+ ".json")).
  set (w1 := Http.withDisk w _).
  set (w2 := UploadRoute.tryWarn _ "CBR re-encode failed (non-fatal):" w1).
  set (w3 := UploadRoute.tryWarn _ "Peak generation failed (non-fatal):" w2).
  exists w3.
  assert (Hdb : Http.db w3 = Http.db w).
  { unfold w3, w2. rewrite !(proj1 (tryWarn_spec _ _ _)). reflexivity. }
  assert (Hne1 : Path.join (Path.dir p) (Path.name p +:+ ".json") <> Path.format p)
    by (apply jsonPath_ne; discriminate).
  assert (Hne2 : Path.join (Path.dir p) (Path.name p +:+ ".json")
                 <> AudioReencode.tempPath p)
    by (apply jsonPath_ne_temp; reflexivity).
  assert (H1 : Fs.files (Http.disk w1) !! Path.format p =
               Some (Fs.Raw (UploadRoute.bytes file))).
  { unfold w1. simpl. apply lookup_insert_eq. }
  assert (H1' : Fs.files (Http.disk w1)
                  !! Path.join (Path.dir p) (Path.name p +:+ ".json") =
                Fs.files (Http.disk w)
                  !! Path.join (Path.dir p) (Path.name p +:+ ".json")).
  { unfold w1. simpl. apply lookup_insert_ne.
    intros Heq. apply Hne1. symmetry. exact Heq. }
  destruct (replaceWithCbrMp3_effect ffmpeg p 128 44100 (Http.disk w1))
    as (Hframe & Hrun).
  cbv zeta in Hframe, Hrun.
  assert (H2 : Fs.files (Http.disk w2) !! Path.format p =
               Some (Fs.Raw match ffmpeg with
                            | AudioReencode.Encoded out => out
                            | AudioReencode.EncoderFailed _ => UploadRoute.bytes file
                            end)).
  { unfold w2. rewrite tryWarn_disk.
    destruct (fst (AudioReencode.replaceWithCbrMp3 ffmpeg p 128 44100 (Http.disk w1)))
      eqn:Hres.
    - destruct Hrun as (_ & out & -> & Ho). exact Ho.
    - rewrite Hrun, H1. destruct ffmpeg as [out|part]; [|reflexivity].
      rewrite (replaceWithCbrMp3_done out p 128 44100 _ _ H1) in Hres.
      discriminate. }
  assert (H2' : Fs.files (Http.disk w2)
                  !! Path.join (Path.dir p) (Path.name p +:+ ".json") =
                Fs.files (Http.disk w)
                  !! Path.join (Path.dir p) (Path.name p +:+ ".json")).
  { unfold w2. rewrite tryWarn_disk. rewrite Hframe by assumption. exact H1'. }
  split; [exact Hdb|]. split; [|split; [|reflexivity]].
  - unfold w3. rewrite tryWarn_disk. destruct gen as [pd|e]; [|exact H2].
    simpl. rewrite lookup_insert_ne by exact Hne1. exact H2.
  - unfold w3. rewrite tryWarn_disk. destruct gen as [pd|e]; [|exact H2'].
    simpl. apply lookup_insert_eq.
Qed.

(** X14: POST answers 200, 400, 401 or 500; 401 exactly when the session
    gives no user id; a 400 or 401 answer leaves the disk, the table and the
    console as they were (nothing is written before validation ends); and a
    200 answer is given only to a request that passes validation, with the
    record of the new id inserted for the user of the session. *)
Theorem upload_responses (uploads : string) (isPublicDefault : bool)
    session formData (newId : string) ffmpeg gen (w : Http.World) :
  let run :=
    UploadRoute.POST uploads isPublicDefault session formData newId ffmpeg gen w in
  In (Http.status (fst run)) [200; 400; 401; 500] /\
  (Http.status (fst run) = 401 <->
   UploadRoute.truthy (session ≫= Http.user_id) = None) /\
  (Http.status (fst run) = 400 \/ Http.status (fst run) = 401 -> snd run = w) /\
  (Http.status (fst run) = 200 ->
   exists userId name file row,
     Spec.passesValidation session formData userId name file /\
     Http.db w !! newId = None /\
     Http.body (fst run) = Http.JsonUploaded newId /\
     Http.db (snd run) !! newId = Some row /\
     Http.createdById row = userId /\ Http.name row = name).
Proof.
  intros run. subst run.
  destruct (UploadRoute.truthy (session ≫= Http.user_id)) as [userId|] eqn:Hu.
  2:{ unfold UploadRoute.POST. rewrite Hu. cbn.
      split; [tauto|]. split; [tauto|]. split; [reflexivity | discriminate]. }
  destruct (UploadRoute.truthy (UploadRoute.form_name formData)) as [name|] eqn:Hn.
  2:{ unfold UploadRoute.POST. rewrite Hu, Hn. cbn.
      split; [tauto|]. split; [split; discriminate|].
      split; [reflexivity | discriminate]. }
  destruct (UploadRoute.form_file formData) as [file|] eqn:Hf.
  2:{ unfold UploadRoute.POST. rewrite Hu, Hn, Hf. cbn.
      split; [tauto|]. split; [split; discriminate|].
      split; [reflexivity | discriminate]. }
  destruct (UploadRoute.maxSize <? UploadRoute.size file) eqn:Hs.
  { unfold UploadRoute.POST. rewrite Hu, Hn, Hf, Hs. cbn.
    split; [tauto|]. split; [split; discriminate|].
    split; [reflexivity | discriminate]. }
  destruct (String.eqb_spec (Str.toLowerCase (UploadRoute.extname file)) ".mp3")
    as [He|He].
  2:{ unfold UploadRoute.POST. rewrite Hu, Hn, Hf, Hs.
      apply String.eqb_neq in He. rewrite He. cbn.
      split; [tauto|]. split; [split; discriminate|].
      split; [reflexivity | discriminate]. }
  assert (Hval : Spec.passesValidation session formData userId name file).
  { repeat split; try assumption. apply Z.ltb_ge. exact Hs. }
  destruct (POST_validated_world uploads isPublicDefault session formData newId
              ffmpeg gen w userId name file Hval) as (w3 & Hdb & _ & _ & Hpost).
  rewrite Hpost. unfold UploadRoute.db_audio_create. cbn [Http.id].
  rewrite Hdb. destruct (Http.db w !! newId) as [old|] eqn:Hold; cbn.
  - split; [tauto|]. split; [split; discriminate|].
    split; [intros [H|H]; discriminate | discriminate].
  - split; [tauto|]. split; [split; discriminate|].
    split; [intros [H|H]; discriminate|]. intros _.
    eexists userId, name, file, _. split; [exact Hval|]. split; [reflexivity|].
    split; [reflexivity|]. split; [apply lookup_insert_eq|]. split; reflexivity.
Qed.

Lemma upload_responses_witness :
  let file := UploadRoute.mkFile "notes.txt" ".txt" 3 [Byte.x49] in
  let formData := UploadRoute.mkForm (Some "Song") None (Some file) in
  let w := Http.mkWorld (Fs.mkDisk ∅ []) ∅ [] in
  snd (UploadRoute.POST "/srv/data/uploads" false
         (Some (Http.mkSession (Some "u1"))) formData "a1"
         (AudioReencode.Encoded [Byte.xff]) (Err (ToolError "ffprobe")) w) = w.
Proof.
  intros file formData w.
  apply (proj1 (proj2 (proj2 (upload_responses "/srv/data/uploads" false
           (Some (Http.mkSession (Some "u1"))) formData "a1"
           (AudioReencode.Encoded [Byte.xff]) (Err (ToolError "ffprobe")) w)))).
  left. reflexivity.
Defined.

(** X15: when the new id is already in the table, a validated upload is
    answered 500 and the table keeps the old record, but the file of that id
    on disk has by then been overwritten with the upload (re-encoded when the
    encoder succeeded). *)
Theorem upload_id_collision (uploads : string) (isPublicDefault : bool)
    session formData (newId : string) ffmpeg gen (w : Http.World)
    (userId name : string) file old :
  Spec.passesValidation session formData userId name file ->
  Http.db w !! newId = Some old ->
  let run :=
    UploadRoute.POST uploads isPublicDefault session formData newId ffmpeg gen w in
  fst run = Http.respond 500 (Http.JsonError "Upload failed") /\
  Http.db (snd run) = Http.db w /\
  Fs.files (Http.disk (snd run)) !! Path.join uploads (newId +:+ ".mp3") =
    Some (Fs.Raw match ffmpeg with
                 | AudioReencode.Encoded out => out
                 | AudioReencode.EncoderFailed _ => UploadRoute.bytes file
                 end).
Proof.
  intros Hval Hold run. subst run.
  destruct (POST_validated_world uploads isPublicDefault session formData newId
              ffmpeg gen w userId name file Hval) as (w3 & Hdb & Hfile & _ & Hpost).
  rewrite Hpost. unfold UploadRoute.db_audio_create. cbn [Http.id].
  rewrite Hdb, Hold. cbn. split; [reflexivity|]. split; [exact Hdb | exact Hfile].
Qed.

Lemma upload_id_collision_witness :
  let session := Some (Http.mkSession (Some "u2")) in
  let file := UploadRoute.mkFile "new.mp3" ".mp3" 1 [Byte.x4e] in
  let formData := UploadRoute.mkForm (Some "New") None (Some file) in
  let old := Http.mkAudio "a1" "Old" None "old.mp3"
               (Path.mkPath "" "a1" ".mp3") "u1" false in
  let w := Http.mkWorld
             (Fs.mkDisk {[ "/srv/data/uploads/a1.mp3" := Fs.Raw [Byte.x4f] ]} [])
             {[ "a1" := old ]} [] in
  let run := UploadRoute.POST "/srv/data/uploads" false session formData "a1"
               (AudioReencode.EncoderFailed None) (Err (ToolError "ffprobe")) w in
  Http.status (fst run) = 500 /\
  Fs.files (Http.disk (snd run)) !! "/srv/data/uploads/a1.mp3"
    = Some (Fs.Raw [Byte.x4e]).
Proof.
  intros session file formData old w run.
  assert (Hval : Spec.passesValidation session formData "u2" "New" file).
  { repeat split. vm_compute. discriminate. }
  destruct (upload_id_collision "/srv/data/uploads" false session formData "a1"
              (AudioReencode.EncoderFailed None) (Err (ToolError "ffprobe")) w
              "u2" "New" file old Hval eq_refl) as (H1 & _ & H3).
  split.
  - subst run. rewrite H1. reflexivity.
  - exact H3.
Defined.





(** ** The service worker, continued *)

Section CacheStorageFacts.
Import ServiceWorker.

Lemma partition_app_miss (name : string) (caches extra : CacheStorage) :
  existsb (fun c => String.eqb (fst c) name) caches = true ->
  partition name (caches ++ extra) = partition name caches.
Proof.
  unfold partition. induction caches as [|c caches IH]; simpl; [discriminate|].
  destruct (String.eqb (fst c) name); [reflexivity|]. simpl. exact IH.
Qed.

Lemma partition_absent (name : string) (caches : CacheStorage) :
  existsb (fun c => String.eqb (fst c) name) caches = false ->
  partition name caches = ∅.
Proof.
  unfold partition. induction caches as [|c caches IH]; simpl; [reflexivity|].
  destruct (String.eqb (fst c) name); [discriminate|]. simpl. exact IH.
Qed.

(** Opening a partition stores nothing. *)
Lemma partition_open (name name' : string) (caches : CacheStorage) :
  partition name (open name' caches) = partition name caches.
Proof.
  unfold open. destruct (existsb _ caches) eqn:Hex; [reflexivity|].
  destruct (existsb (fun c => String.eqb (fst c) name) caches) eqn:Hn.
  - apply partition_app_miss. exact Hn.
  - rewrite (partition_absent name caches Hn). clear Hex.
    unfold partition. induction caches as [|c caches IH]; simpl.
    + destruct (String.eqb name' name); reflexivity.
    + simpl in Hn. destruct (String.eqb (fst c) name); [discriminate|].
      simpl. apply IH. exact Hn.
Qed.

Lemma existsb_open (name : string) (caches : CacheStorage) :
  existsb (fun c => String.eqb (fst c) name) (open name caches) = true.
Proof.
  unfold open. destruct (existsb _ caches) eqn:Hex; [exact Hex|].
  rewrite existsb_app. simpl. rewrite String.eqb_refl. apply orb_true_r.
Qed.

Lemma partition_map_put (name key : string) (r : Response) (name' : string)
    (caches : CacheStorage) :
  partition name'
    (map (fun c =>
            if String.eqb (fst c) name then (fst c, <[key := r]> (snd c)) else c)
         caches) =
  if String.eqb name name' &&
     existsb (fun c => String.eqb (fst c) name') caches
  then <[key := r]> (partition name' caches)
  else partition name' caches.
Proof.
  unfold partition. induction caches as [|c caches IH]; simpl.
  - rewrite andb_false_r. reflexivity.
  - destruct (String.eqb_spec (fst c) name) as [Hc|Hc]; simpl.
    + destruct (String.eqb_spec (fst c) name') as [Hc'|Hc']; simpl.
      * assert (Heq : String.eqb name name' = true)
          by (apply String.eqb_eq; congruence).
        rewrite Heq. reflexivity.
      * exact IH.
    + destruct (String.eqb_spec (fst c) name') as [Hc'|Hc']; simpl.
      * assert (Hneq : String.eqb name name' = false)
          by (apply String.eqb_neq; congruence).
        rewrite Hneq. reflexivity.
      * exact IH.
Qed.

(** What [put] stores: the response under the key of the request, in the
    named partition, and nothing else. *)
Lemma partition_put (name : string) (request : Request) (r : Response)
    (name' : string) (caches : CacheStorage) :
  partition name' (put name request r caches) =
  if String.eqb name name'
  then <[cacheKey request := r]> (partition name' caches)
  else partition name' caches.
Proof.
  unfold put. rewrite partition_map_put, partition_open.
  destruct (String.eqb_spec name name') as [<-|Hne]; simpl; [|reflexivity].
  rewrite existsb_open. reflexivity.
Qed.

Lemma open_put (name : string) (request : Request) (r : Response)
    (caches : CacheStorage) :
  open name (put name request r caches) = put name request r caches.
Proof.
  unfold open at 1.
  replace (existsb (fun c => String.eqb (fst c) name) (put name request r caches))
    with true; [reflexivity|].
  symmetry. unfold put. pose proof (existsb_open name caches) as H.
  induction (open name caches) as [|c l IH]; simpl in *; [discriminate|].
  destruct (String.eqb (fst c) name) eqn:Hc; simpl; [rewrite Hc; reflexivity|].
  rewrite Hc. simpl. apply IH. exact H.
Qed.

Lemma matchAny_in (request : Request) (caches : CacheStorage) (name : string)
    (r : Response) :
  In name (map fst caches) ->
  partition name caches !! cacheKey request = Some r ->
  is_Some (matchAny request caches).
Proof.
  unfold partition. induction caches as [|c caches IH]; simpl; [tauto|].
  intros Hin Hp.
  destruct (snd c !! cacheKey request) as [x|] eqn:Hx; [eauto|].
  destruct (String.eqb (fst c) name) eqn:Hc; simpl in Hp.
  - congruence.
  - apply IH; [|exact Hp].
    destruct Hin as [Heq|Hin]; [|exact Hin].
    apply String.eqb_neq in Hc. congruence.
Qed.

Lemma partition_lookup_in (name key : string) (caches : CacheStorage)
    (r : Response) :
  partition name caches !! key = Some r -> In name (map fst caches).
Proof.
  unfold partition. induction caches as [|c caches IH]; simpl.
  - rewrite lookup_empty. discriminate.
  - destruct (String.eqb_spec (fst c) name) as [Hc|Hc]; simpl; [auto|].
    intros H. right. apply IH. exact H.
Qed.

End CacheStorageFacts.

(** X17: the fetch listener never removes or replaces a stored response
    other than by storing, under the URL of the request it is handling (its
    fragment left out), the network response to that very request, and only
    when that response has status 200, the request is a GET and the worker
    runs in production mode; it then goes to one of the three current
    partitions. *)
Theorem fetch_stores_only_own_200 (IS_PRODUCTION : bool)
    (request : ServiceWorker.Request) network caches (name key : string) :
  let caches' := snd (ServiceWorker.onFetch IS_PRODUCTION request network caches) in
  ServiceWorker.partition name caches' !! key =
    ServiceWorker.partition name caches !! key \/
  exists r,
    network = Some r /\ ServiceWorker.status r = 200 /\
    IS_PRODUCTION = true /\ ServiceWorker.method request = "GET" /\
    key = ServiceWorker.cacheKey request /\
    In name [ServiceWorker.CACHE_NAME; ServiceWorker.AUDIO_CACHE_NAME;
             ServiceWorker.STATIC_CACHE_NAME] /\
    ServiceWorker.partition name caches' !! key = Some r.
Proof.
  intros caches'. subst caches'. unfold ServiceWorker.onFetch.
  destruct (String.eqb_spec (ServiceWorker.method request) "GET") as [Hm|Hm];
    simpl; [|left; reflexivity].
  destruct (Str.startsWith _ "http"); simpl; [|left; reflexivity].
  destruct IS_PRODUCTION; simpl; [|left; reflexivity].
  assert (Hput : forall part r,
    In part [ServiceWorker.CACHE_NAME; ServiceWorker.AUDIO_CACHE_NAME;
             ServiceWorker.STATIC_CACHE_NAME] ->
    network = Some r ->
    forall base,
      (forall n, ServiceWorker.partition n base = ServiceWorker.partition n caches) ->
      ServiceWorker.partition name
        (if ServiceWorker.cacheable r
         then ServiceWorker.put part request r base else base) !! key =
        ServiceWorker.partition name caches !! key \/
      exists r0,
        network = Some r0 /\ ServiceWorker.status r0 = 200 /\
        true = true /\ ServiceWorker.method request = "GET" /\
        key = ServiceWorker.cacheKey request /\
        In name [ServiceWorker.CACHE_NAME; ServiceWorker.AUDIO_CACHE_NAME;
                 ServiceWorker.STATIC_CACHE_NAME] /\
        ServiceWorker.partition name
          (if ServiceWorker.cacheable r
           then ServiceWorker.put part request r base else base) !! key = Some r0).
  { intros part r Hpart Hnet base Hbase.
    unfold ServiceWorker.cacheable.
    destruct (Z.eqb_spec (ServiceWorker.status r) 200) as [H200|H200];
      [|left; now rewrite Hbase].
    rewrite partition_put, Hbase.
    destruct (String.eqb_spec part name) as [<-|Hn]; [|left; reflexivity].
    destruct (decide (ServiceWorker.cacheKey request = key))
      as [<-|Hk].
    - right. exists r. rewrite lookup_insert_eq. auto 10.
    - left. apply lookup_insert_ne. exact Hk. }
  destruct (ServiceWorker.isAudioRequest request).
  { destruct (ServiceWorker.matchIn _ request _);
      [left; simpl; now rewrite partition_open|].
    destruct network as [r|]; [|left; simpl; now rewrite partition_open].
    simpl. apply Hput; [simpl; tauto | reflexivity |].
    intros n. apply partition_open. }
  destruct (ServiceWorker.isStaticAsset request).
  { destruct (ServiceWorker.matchAny request caches); [left; reflexivity|].
    destruct network as [r|]; [|left; reflexivity].
    simpl. apply Hput; [simpl; tauto | reflexivity | reflexivity]. }
  destruct (ServiceWorker.isAuthRequest request); [left; reflexivity|].
  assert (Hnf :
    ServiceWorker.partition name
      (snd (ServiceWorker.networkFirst request network caches)) !! key =
      ServiceWorker.partition name caches !! key \/
    exists r0,
      network = Some r0 /\ ServiceWorker.status r0 = 200 /\
      true = true /\ ServiceWorker.method request = "GET" /\
      key = ServiceWorker.cacheKey request /\
      In name [ServiceWorker.CACHE_NAME; ServiceWorker.AUDIO_CACHE_NAME;
               ServiceWorker.STATIC_CACHE_NAME] /\
      ServiceWorker.partition name
        (snd (ServiceWorker.networkFirst request network caches)) !! key = Some r0).
  { unfold ServiceWorker.networkFirst. destruct network as [r|].
    - simpl. apply Hput; [simpl; tauto | reflexivity | reflexivity].
    - destruct (ServiceWorker.matchAny request caches); left; reflexivity. }
  destruct (ServiceWorker.isApiRequest request); exact Hnf.
Qed.

(** X18: audio requests in production are answered cache first.  A response
    stored for the URL of the request (its fragment left out) is returned
    without the network; on a miss, a 200 response from
    the network is returned and stored, so that the same request is answered
    from the cache from then on, network or not; a response with another
    status is returned but not stored; and with neither cache nor network the
    request fails (no synthetic answer). *)
Theorem audio_cache_first (request : ServiceWorker.Request) caches :
  ServiceWorker.method request = "GET" ->
  Str.startsWith (ServiceWorker.protocol (ServiceWorker.url request)) "http" = true ->
  ServiceWorker.isAudioRequest request = true ->
  let lookup cs :=
    ServiceWorker.matchIn ServiceWorker.AUDIO_CACHE_NAME request cs in
  (forall c network,
     lookup caches = Some c ->
     fst (ServiceWorker.onFetch true request network caches) =
     ServiceWorker.Responded ServiceWorker.FromCache c) /\
  (lookup caches = None ->
   fst (ServiceWorker.onFetch true request None caches) = ServiceWorker.Rejected /\
   forall r,
     let run := ServiceWorker.onFetch true request (Some r) caches in
     fst run = ServiceWorker.Responded ServiceWorker.FromNetwork r /\
     (ServiceWorker.status r = 200 ->
      forall network,
        fst (ServiceWorker.onFetch true request network (snd run)) =
        ServiceWorker.Responded ServiceWorker.FromCache r) /\
     (ServiceWorker.status r <> 200 -> lookup (snd run) = None)).
Proof.
  intros Hm Hp Ha lookup.
  assert (Hstep : forall network cs,
    ServiceWorker.onFetch true request network cs =
    let cs1 := ServiceWorker.open ServiceWorker.AUDIO_CACHE_NAME cs in
    match ServiceWorker.matchIn ServiceWorker.AUDIO_CACHE_NAME request cs1 with
    | Some c => (ServiceWorker.Responded ServiceWorker.FromCache c, cs1)
    | None =>
        match network with
        | Some r =>
            (ServiceWorker.Responded ServiceWorker.FromNetwork r,
             if ServiceWorker.cacheable r
             then ServiceWorker.put ServiceWorker.AUDIO_CACHE_NAME request r cs1
             else cs1)
        | None => (ServiceWorker.Rejected, cs1)
        end
    end).
  { intros network cs. unfold ServiceWorker.onFetch. rewrite Hm, Hp, Ha. reflexivity. }
  assert (Hopen : forall cs,
    ServiceWorker.matchIn ServiceWorker.AUDIO_CACHE_NAME request
      (ServiceWorker.open ServiceWorker.AUDIO_CACHE_NAME cs) = lookup cs).
  { intros cs. unfold lookup, ServiceWorker.matchIn. now rewrite partition_open. }
  split.
  - intros c network Hc. rewrite Hstep. cbv zeta. rewrite Hopen, Hc. reflexivity.
  - intros Hmiss. split.
    + rewrite Hstep. cbv zeta. rewrite Hopen, Hmiss. reflexivity.
    + intros r run. subst run. rewrite Hstep. cbv zeta. rewrite Hopen, Hmiss.
      cbn [fst snd]. split; [reflexivity|]. unfold ServiceWorker.cacheable. split.
      * intros H200 network. rewrite H200. simpl.
        rewrite Hstep. cbv zeta. rewrite open_put.
        unfold ServiceWorker.matchIn. rewrite partition_put, String.eqb_refl.
        rewrite lookup_insert_eq. reflexivity.
      * intros Hn. destruct (Z.eqb_spec (ServiceWorker.status r) 200) as [H|H];
          [contradiction|].
        rewrite <- Hmiss. apply Hopen.
Qed.

Lemma audio_cache_first_witness :
  let request :=
    ServiceWorker.mkRequest "GET"
      (ServiceWorker.mkURL "https://app.example/song.mp3#t=10" "https:"
         "/song.mp3") None in
  let r := ServiceWorker.mkResponse 200 "ID3" in
  let caches : ServiceWorker.CacheStorage :=
    [(ServiceWorker.AUDIO_CACHE_NAME, {[ "https://app.example/song.mp3" := r ]})] in
  fst (ServiceWorker.onFetch true request None caches) =
  ServiceWorker.Responded ServiceWorker.FromCache r.
Proof.
  intros request r caches.
  exact (proj1 (audio_cache_first request caches eq_refl eq_refl eq_refl)
           r None eq_refl).
Defined.

(** After a [put], a lookup over all partitions finds what a partition
    created before the named one holds for the request, and otherwise what
    has just been stored. *)
Lemma matchAny_put (name : string) (request : ServiceWorker.Request)
    (r : ServiceWorker.Response) (caches : ServiceWorker.CacheStorage) :
  ServiceWorker.matchAny request (ServiceWorker.put name request r caches) =
  match ServiceWorker.matchAny request (ServiceWorker.olderThan name caches) with
  | Some old => Some old
  | None => Some r
  end.
Proof.
  unfold ServiceWorker.put. induction caches as [|c caches IH].
  - unfold ServiceWorker.open. simpl. rewrite String.eqb_refl. simpl.
    rewrite lookup_insert_eq. reflexivity.
  - unfold ServiceWorker.open in *. simpl.
    destruct (String.eqb (fst c) name) eqn:Hc; simpl.
    + rewrite Hc. simpl. rewrite lookup_insert_eq. reflexivity.
    + destruct (existsb _ caches); simpl; rewrite Hc; simpl;
        destruct (snd c !! ServiceWorker.cacheKey request); auto.
Qed.

(** X19: every production GET that is neither audio, static nor
    authentication, API or not, is answered network first: with the network
    up the network response is returned, never a stored one; with the network
    down a stored response for the URL is returned from the first partition
    that holds one, and a synthetic 503 when none does, so the request never
    fails.  A 200 response is kept in the generic partition; the next request
    made offline is answered with it, unless a partition created before the
    generic one holds a response for the URL, which is then served instead. *)
Theorem network_first (request : ServiceWorker.Request) caches :
  ServiceWorker.method request = "GET" ->
  Str.startsWith (ServiceWorker.protocol (ServiceWorker.url request)) "http" = true ->
  ServiceWorker.isAudioRequest request = false ->
  ServiceWorker.isStaticAsset request = false ->
  ServiceWorker.isAuthRequest request = false ->
  (forall r,
     fst (ServiceWorker.onFetch true request (Some r) caches) =
     ServiceWorker.Responded ServiceWorker.FromNetwork r) /\
  fst (ServiceWorker.onFetch true request None caches) =
    match ServiceWorker.matchAny request caches with
    | Some c => ServiceWorker.Responded ServiceWorker.FromCache c
    | None =>
        ServiceWorker.Responded ServiceWorker.Synthetic
          (ServiceWorker.mkResponse 503 "Network error")
    end /\
  (forall r,
     ServiceWorker.status r = 200 ->
     ServiceWorker.matchIn ServiceWorker.CACHE_NAME request
       (snd (ServiceWorker.onFetch true request (Some r) caches)) = Some r /\
     fst (ServiceWorker.onFetch true request None
            (snd (ServiceWorker.onFetch true request (Some r) caches))) =
     ServiceWorker.Responded ServiceWorker.FromCache
       match ServiceWorker.matchAny request
               (ServiceWorker.olderThan ServiceWorker.CACHE_NAME caches) with
       | Some old => old
       | None => r
       end).
Proof.
  intros Hm Hp Ha Hs Hauth.
  assert (Hstep : forall network cs,
    ServiceWorker.onFetch true request network cs =
    ServiceWorker.networkFirst request network cs).
  { intros network cs. unfold ServiceWorker.onFetch.
    rewrite Hm, Hp, Ha, Hs, Hauth. simpl.
    destruct (ServiceWorker.isApiRequest request); reflexivity. }
  split; [|split].
  - intros r. rewrite Hstep. reflexivity.
  - rewrite Hstep. unfold ServiceWorker.networkFirst.
    destruct (ServiceWorker.matchAny request caches); reflexivity.
  - intros r H200. rewrite !Hstep.
    assert (Hstored :
      snd (ServiceWorker.networkFirst request (Some r) caches) =
      ServiceWorker.put ServiceWorker.CACHE_NAME request r caches).
    { unfold ServiceWorker.networkFirst, ServiceWorker.cacheable.
      rewrite H200. reflexivity. }
    rewrite Hstored. split.
    + unfold ServiceWorker.matchIn.
      rewrite partition_put, String.eqb_refl. apply lookup_insert_eq.
    + unfold ServiceWorker.networkFirst. rewrite matchAny_put.
      destruct (ServiceWorker.matchAny request
                  (ServiceWorker.olderThan ServiceWorker.CACHE_NAME caches));
        reflexivity.
Qed.

Lemma network_first_witness :
  let request :=
    ServiceWorker.mkRequest "GET"
      (ServiceWorker.mkURL "https://app.example/#top" "https:" "/")
      (Some "text/html") in
  let precached := ServiceWorker.mkResponse 200 "<html>v1</html>" in
  let fresh := ServiceWorker.mkResponse 200 "<html>v2</html>" in
  let caches : ServiceWorker.CacheStorage :=
    [(ServiceWorker.STATIC_CACHE_NAME, {[ "https://app.example/" := precached ]})] in
  fst (ServiceWorker.onFetch true request None
         (snd (ServiceWorker.onFetch true request (Some fresh) caches))) =
  ServiceWorker.Responded ServiceWorker.FromCache precached.
Proof.
  intros request precached fresh caches.
  exact (proj2 (proj2 (proj2 (network_first request caches eq_refl eq_refl eq_refl
                                eq_refl eq_refl)) fresh eq_refl)).
Defined.

(** X20: the worker caches unless the application was built with
    [NODE_ENV] equal to [development].  In a development build neither the
    install listener nor the fetch listener stores anything, and every
    request the fetch listener answers is answered by the network. *)
Theorem development_build_never_caches (NODE_ENV : string) :
  let IS_PRODUCTION :=
    ServiceWorkerEvents.startUp
      (Ok (Some (ServiceWorkerEvents.registrationEnv NODE_ENV))) in
  (IS_PRODUCTION = false <-> NODE_ENV = "development") /\
  (NODE_ENV = "development" ->
   forall request network caches protocol host fetch,
     ServiceWorkerEvents.onInstall IS_PRODUCTION protocol host fetch caches =
       (true, caches) /\
     snd (ServiceWorker.onFetch IS_PRODUCTION request network caches) = caches /\
     (fst (ServiceWorker.onFetch IS_PRODUCTION request network caches) =
        ServiceWorker.NotIntercepted \/
      fst (ServiceWorker.onFetch IS_PRODUCTION request network caches) =
        ServiceWorker.live network)).
Proof.
  intros IS_PRODUCTION. subst IS_PRODUCTION.
  unfold ServiceWorkerEvents.startUp, ServiceWorkerEvents.registrationEnv.
  split.
  - destruct (String.eqb_spec NODE_ENV "development") as [H|H]; simpl.
    + split; auto.
    + split; [discriminate | contradiction].
  - intros ->. simpl. intros request network caches protocol host fetch.
    split; [reflexivity|]. unfold ServiceWorker.onFetch.
    destruct (negb (String.eqb (ServiceWorker.method request) "GET")); [auto|].
    destruct (negb (Str.startsWith _ "http")); simpl; auto.
Qed.

Lemma development_build_never_caches_witness :
  let request :=
    ServiceWorker.mkRequest "GET"
      (ServiceWorker.mkURL "http://localhost:3000/favicon.ico" "http:"
         "/favicon.ico") None in
  let r := ServiceWorker.mkResponse 200 "icon" in
  snd (ServiceWorker.onFetch
         (ServiceWorkerEvents.startUp
            (Ok (Some (ServiceWorkerEvents.registrationEnv "development"))))
         request (Some r) []) = [].
Proof.
  intros request r.
  destruct (proj2 (development_build_never_caches "development") eq_refl
              request (Some r) [] "http:" "localhost:3000" (fun _ => None))
    as (_ & H & _).
  exact H.
Defined.

(** X21: activation deletes exactly the partitions that do not bear one of
    the three current names: each current partition keeps every response it
    holds, and no partition of another name is left. *)
Theorem activate_keeps_current_partitions (caches : ServiceWorker.CacheStorage)
    (name : string) :
  (In name [ServiceWorker.CACHE_NAME; ServiceWorker.AUDIO_CACHE_NAME;
            ServiceWorker.STATIC_CACHE_NAME] ->
   ServiceWorker.partition name (ServiceWorkerEvents.onActivate caches) =
   ServiceWorker.partition name caches) /\
  (~ In name [ServiceWorker.CACHE_NAME; ServiceWorker.AUDIO_CACHE_NAME;
              ServiceWorker.STATIC_CACHE_NAME] ->
   ~ In name (map fst (ServiceWorkerEvents.onActivate caches))).
Proof.
  unfold ServiceWorkerEvents.onActivate. split.
  - intros Hin. unfold ServiceWorker.partition.
    induction caches as [|c caches IH]; [reflexivity|]. simpl.
    destruct (String.eqb_spec (fst c) name) as [Hc|Hc].
    + assert (Hkeep :
        negb (negb (String.eqb (fst c) ServiceWorker.CACHE_NAME) &&
              negb (String.eqb (fst c) ServiceWorker.AUDIO_CACHE_NAME) &&
              negb (String.eqb (fst c) ServiceWorker.STATIC_CACHE_NAME)) = true).
      { rewrite Hc. simpl in Hin.
        destruct Hin as [<-|[<-|[<-|[]]]]; reflexivity. }
      rewrite Hkeep. simpl.
      destruct (String.eqb_spec (fst c) name); [reflexivity | contradiction].
    + destruct (negb _); simpl; [|exact IH].
      destruct (String.eqb_spec (fst c) name); [contradiction | exact IH].
  - intros Hout Hin. apply in_map_iff in Hin as (c & <- & Hc).
    apply filter_In in Hc as [_ Hc]. apply Hout. simpl.
    destruct (String.eqb_spec (fst c) ServiceWorker.CACHE_NAME) as [->|_]; [tauto|].
    destruct (String.eqb_spec (fst c) ServiceWorker.AUDIO_CACHE_NAME) as [->|_];
      [tauto|].
    destruct (String.eqb_spec (fst c) ServiceWorker.STATIC_CACHE_NAME) as [->|_];
      [tauto|].
    discriminate.
Qed.

Lemma activate_keeps_current_partitions_witness :
  let r := ServiceWorker.mkResponse 200 "ID3" in
  let caches : ServiceWorker.CacheStorage :=
    [("audio-marker-audio-v0", {[ "https://app.example/a.mp3" := r ]});
     ("audio-marker-audio-v1", {[ "https://app.example/b.mp3" := r ]})] in
  ServiceWorker.partition "audio-marker-audio-v1"
    (ServiceWorkerEvents.onActivate caches)
    !! "https://app.example/b.mp3" = Some r /\
  ~ In "audio-marker-audio-v0" (map fst (ServiceWorkerEvents.onActivate caches)).
Proof.
  intros r caches. split.
  - rewrite (proj1 (activate_keeps_current_partitions caches
                      "audio-marker-audio-v1")); [reflexivity|].
    simpl. tauto.
  - apply (proj2 (activate_keeps_current_partitions caches "audio-marker-audio-v0")).
    simpl. intros [H|[H|[H|[]]]]; discriminate.
Defined.

(** Evaluate a closed test in the goal. *)
Ltac compute_closed t := let b := eval vm_compute in t in change t with b.

Lemma fold_put_kept (name : string) (fetch : ServiceWorker.Request -> option ServiceWorker.Response)
    (requests : list ServiceWorker.Request) (caches : ServiceWorker.CacheStorage)
    (key : string) :
  is_Some (ServiceWorker.partition name caches !! key) ->
  is_Some
    (ServiceWorker.partition name
       (fold_left
          (fun cs rq =>
             match fetch rq with
             | Some r => ServiceWorker.put name rq r cs
             | None => cs
             end) requests caches) !! key).
Proof.
  revert caches. induction requests as [|rq requests IH]; intros caches H; [exact H|].
  simpl. apply IH. destruct (fetch rq) as [r|]; [|exact H].
  rewrite partition_put, String.eqb_refl.
  destruct (decide (ServiceWorker.cacheKey rq = key)) as [<-|Hk].
  - rewrite lookup_insert_eq. eauto.
  - rewrite lookup_insert_ne by exact Hk. exact H.
Qed.

Lemma fold_put_stored (name : string) (fetch : ServiceWorker.Request -> option ServiceWorker.Response)
    (requests : list ServiceWorker.Request) (caches : ServiceWorker.CacheStorage)
    (rq : ServiceWorker.Request) :
  In rq requests ->
  is_Some (fetch rq) ->
  is_Some
    (ServiceWorker.partition name
       (fold_left
          (fun cs rq =>
             match fetch rq with
             | Some r => ServiceWorker.put name rq r cs
             | None => cs
             end) requests caches)
     !! ServiceWorker.cacheKey rq).
Proof.
  revert caches. induction requests as [|rq' requests IH]; intros caches Hin Hf;
    [destruct Hin|].
  simpl. destruct Hin as [->|Hin]; [|apply IH; assumption].
  apply fold_put_kept. destruct Hf as [r Hr]. rewrite Hr.
  rewrite partition_put, String.eqb_refl, lookup_insert_eq. eauto.
Qed.

(** X22: installation in production either stores all four assets of the
    manifest or none of them.  Once it has succeeded, a GET of any of the
    four URLs made while the network is down is answered from the cache
    (provided its accept header does not make it an audio request); when it
    fails, no response has been stored. *)
Theorem precached_assets_served_offline (protocol host : string)
    (fetch : ServiceWorker.Request -> option ServiceWorker.Response)
    (caches : ServiceWorker.CacheStorage) :
  let installed :=
    ServiceWorkerEvents.onInstall true protocol host fetch caches in
  (fst installed = true ->
   forall asset request,
     In asset ServiceWorkerEvents.STATIC_ASSETS ->
     ServiceWorker.method request = "GET" ->
     Str.startsWith (ServiceWorker.protocol (ServiceWorker.url request)) "http"
       = true ->
     ServiceWorker.href (ServiceWorker.url request) =
       protocol +:+ "//" +:+ host +:+ asset ->
     ServiceWorker.pathname (ServiceWorker.url request) = asset ->
     ServiceWorker.isAudioRequest request = false ->
     exists c,
       fst (ServiceWorker.onFetch true request None (snd installed)) =
       ServiceWorker.Responded ServiceWorker.FromCache c) /\
  (fst installed = false ->
   forall name,
     ServiceWorker.partition name (snd installed) =
     ServiceWorker.partition name caches).
Proof.
  intros installed. subst installed. unfold ServiceWorkerEvents.onInstall.
  cbv zeta. unfold ServiceWorkerEvents.addAll.
  destruct (forallb _ _) eqn:Hall; cbn [fst snd].
  - split; [|discriminate]. intros _ asset request Hin Hm Hp Hhref Hpath Haudio.
    set (installed := fold_left _ _ _).
    assert (Hstored : is_Some (ServiceWorker.matchAny request installed)).
    { rewrite forallb_forall in Hall.
      assert (Hrq : In (ServiceWorkerEvents.assetRequest protocol host asset)
                      (map (ServiceWorkerEvents.assetRequest protocol host)
                           ServiceWorkerEvents.STATIC_ASSETS))
        by (apply in_map; exact Hin).
      assert (Hf : is_Some (fetch (ServiceWorkerEvents.assetRequest protocol host asset))).
      { specialize (Hall _ Hrq). destruct (fetch _); [eauto | discriminate]. }
      destruct (fold_put_stored ServiceWorker.STATIC_CACHE_NAME fetch _
                  (ServiceWorker.open ServiceWorker.STATIC_CACHE_NAME caches)
                  _ Hrq Hf) as [r Hr].
      fold installed in Hr. unfold ServiceWorker.cacheKey in Hr.
      cbn [ServiceWorkerEvents.assetRequest
        ServiceWorker.url ServiceWorker.href] in Hr. rewrite <- Hhref in Hr.
      fold (ServiceWorker.cacheKey request) in Hr.
      apply (matchAny_in request installed ServiceWorker.STATIC_CACHE_NAME r);
        [|exact Hr].
      eapply partition_lookup_in. exact Hr. }
    destruct Hstored as [c Hc]. exists c. clearbody installed.
    unfold ServiceWorker.onFetch. rewrite Hm, Hp, Haudio. cbn [negb].
    unfold ServiceWorker.isStaticAsset, ServiceWorker.isAuthRequest,
      ServiceWorker.isApiRequest, ServiceWorker.networkFirst. rewrite Hpath.
    simpl in Hin. destruct Hin as [<-|[<-|[<-|[<-|[]]]]];
      repeat match goal with
        | |- context [existsb ?f ?l] => compute_closed (existsb f l)
        | |- context [Str.startsWith ?a ?b] => compute_closed (Str.startsWith a b)
        | |- context [ServiceWorker.matchesAudioApi ?a] =>
            compute_closed (ServiceWorker.matchesAudioApi a)
        end;
      cbv iota; rewrite Hc; reflexivity.
  - split; [discriminate|]. intros _ name. apply partition_open.
Qed.

Lemma precached_assets_served_offline_witness :
  let fetch (rq : ServiceWorker.Request) :=
    Some (ServiceWorker.mkResponse 200 (ServiceWorker.pathname (ServiceWorker.url rq))) in
  let request :=
    ServiceWorker.mkRequest "GET"
      (ServiceWorker.mkURL "https://app.example/" "https:" "/") (Some "text/html") in
  exists c,
    fst (ServiceWorker.onFetch true request None
           (snd (ServiceWorkerEvents.onInstall true "https:" "app.example"
                   fetch []))) =
    ServiceWorker.Responded ServiceWorker.FromCache c.
Proof.
  intros fetch request.
  apply (proj1 (precached_assets_served_offline "https:" "app.example" fetch [])
           eq_refl "/" request); try reflexivity.
  simpl. tauto.
Defined.

(** ** The audio API pattern *)

Lemma prefix_slash_cons (b : ascii) (s : string) :
  String.prefix "/" (String b s) = Ascii.eqb b "/".
Proof.
  cbn [String.prefix]. destruct (ascii_dec "/" b) as [<-|Hne].
  - destruct s; reflexivity.
  - symmetry. apply Ascii.eqb_neq. congruence.
Qed.

Lemma index_slash_cons (b : ascii) (s : string) :
  String.index 0 "/" (String b s) =
  if Ascii.eqb b "/" then Some 0%nat
  else match String.index 0 "/" s with
       | Some n => Some (S n)
       | None => None
       end.
Proof.
  rewrite <- (prefix_slash_cons b s). reflexivity.
Qed.

Lemma index_slash_none (s : string) :
  String.index 0 "/" s = None <-> ~ In "/"%char (list_ascii_of_string s).
Proof.
  induction s as [|b s IH].
  - simpl. tauto.
  - rewrite index_slash_cons. simpl.
    destruct (Ascii.eqb_spec b "/") as [->|Hb].
    + split; [discriminate | tauto].
    + destruct (String.index 0 "/" s) as [n|].
      * split; [discriminate|]. intros H. exfalso. apply H. right.
        destruct (in_dec ascii_dec "/"%char (list_ascii_of_string s)) as [Hin|Hout];
          [exact Hin|]. apply IH in Hout. discriminate.
      * split; [|reflexivity]. intros _ [H|H]; [congruence|].
        apply (proj1 IH eq_refl). exact H.
Qed.

Lemma index_slash_app (seg tail : string) :
  ~ In "/"%char (list_ascii_of_string seg) ->
  String.index 0 "/" (seg +:+ String "/" tail) = Some (String.length seg).
Proof.
  induction seg as [|b seg IH]; intros Hno.
  - simpl. destruct tail; reflexivity.
  - change (String b seg +:+ String "/" tail)
      with (String b (seg +:+ String "/" tail)).
    rewrite index_slash_cons. simpl in Hno.
    destruct (Ascii.eqb_spec b "/") as [->|Hb]; [tauto|].
    rewrite IH by tauto. reflexivity.
Qed.

Lemma index_slash_some (s : string) (n : nat) :
  String.index 0 "/" s = Some n ->
  exists seg tail,
    s = seg +:+ String "/" tail /\ String.length seg = n /\
    ~ In "/"%char (list_ascii_of_string seg).
Proof.
  revert n. induction s as [|b s IH]; intros n H; [discriminate|].
  rewrite index_slash_cons in H.
  destruct (Ascii.eqb_spec b "/") as [->|Hb].
  - injection H as <-. exists "", s. simpl. tauto.
  - destruct (String.index 0 "/" s) as [m|]; [|discriminate].
    injection H as <-. destruct (IH m eq_refl) as (seg & tail & -> & Hl & Hno).
    exists (String b seg), tail. simpl. repeat split; [congruence|].
    intros [H|H]; [congruence | tauto].
Qed.

Lemma substring_all (t : string) : String.substring 0 (String.length t) t = t.
Proof. induction t as [|c t IH]; simpl; [reflexivity | now rewrite IH]. Qed.

Lemma substring_app_drop (seg t : string) :
  String.substring (String.length seg)
    (String.length (seg +:+ t) - String.length seg) (seg +:+ t) = t.
Proof.
  induction seg as [|c seg IH]; simpl.
  - rewrite Nat.sub_0_r. apply substring_all.
  - exact IH.
Qed.

Lemma prefix_app (p t : string) : String.prefix p (p +:+ t) = true.
Proof.
  induction p as [|c p IH]; simpl; [destruct t; reflexivity|].
  destruct (ascii_dec c c); [exact IH | contradiction].
Qed.

Lemma prefix_split (p s : string) :
  String.prefix p s = true -> exists t, s = p +:+ t.
Proof.
  revert s. induction p as [|c p IH]; intros s H; [exists s; reflexivity|].
  destruct s as [|d s]; [discriminate|]. simpl in H.
  destruct (ascii_dec c d) as [<-|]; [|discriminate].
  destruct (IH s H) as (t & ->). exists t. reflexivity.
Qed.

Lemma stripPrefix_spec (p s t : string) :
  Str.stripPrefix p s = Some t <-> s = p +:+ t.
Proof.
  unfold Str.stripPrefix. split.
  - destruct (String.prefix p s) eqn:Hp; [|discriminate].
    destruct (prefix_split p s Hp) as (t' & ->).
    rewrite substring_app_drop. congruence.
  - intros ->. rewrite prefix_app, substring_app_drop. reflexivity.
Qed.

(** X23: the matcher for [AUDIO_API_REGEX] accepts exactly the paths
    [/api/audio/<id>/file] whose [<id>] is not empty and has no slash: the
    language of [/^\/api\/audio\/[^\/]+\/file$/]. *)
Theorem matchesAudioApi_language (path : string) :
  ServiceWorker.matchesAudioApi path = true <->
  exists id,
    id <> "" /\ ~ In "/"%char (list_ascii_of_string id) /\
    path = "/api/audio/" +:+ id +:+ "/file".
Proof.
  unfold ServiceWorker.matchesAudioApi. split.
  - destruct (Str.stripPrefix "/api/audio/" path) as [rest|] eqn:Hs; [|discriminate].
    apply stripPrefix_spec in Hs. subst path.
    destruct (String.index 0 "/" rest) as [n|] eqn:Hi; [|discriminate].
    destruct (index_slash_some rest n Hi) as (seg & tail & -> & <- & Hno).
    rewrite substring_app_drop. intros H. apply andb_prop in H as [Hpos Heq].
    apply String.eqb_eq in Heq. exists seg. split; [|split].
    + intros ->. discriminate.
    + exact Hno.
    + rewrite Heq. reflexivity.
  - intros (id & Hne & Hno & ->).
    rewrite (proj2 (stripPrefix_spec "/api/audio/" _ (id +:+ "/file")) eq_refl).
    change (id +:+ "/file") with (id +:+ String "/" "file").
    rewrite (index_slash_app id "file" Hno), substring_app_drop.
    apply andb_true_intro. split; [|reflexivity].
    destruct id; [contradiction | reflexivity].
Qed.

Lemma matchesAudioApi_language_witness :
  ServiceWorker.matchesAudioApi "/api/audio/3f2a/file" = true.
Proof.
  apply (proj2 (matchesAudioApi_language "/api/audio/3f2a/file")).
  exists "3f2a". split; [discriminate|]. split; [|reflexivity].
  simpl. intros [H|[H|[H|[H|[]]]]]; discriminate.
Defined.

(** X24: a [CLEAR_CACHE] message empties the cache storage for good: the
    next production request made with the network down is not answered from
    a cache, it fails or gets the synthetic 503; any other message, such as
    [SKIP_WAITING], leaves every partition as it is. *)
Theorem clear_cache_forgets (caches : ServiceWorker.CacheStorage)
    (request : ServiceWorker.Request) :
  (forall c,
     fst (ServiceWorker.onFetch true request None
            (ServiceWorkerEvents.onMessage (Some "CLEAR_CACHE") caches)) <>
     ServiceWorker.Responded ServiceWorker.FromCache c) /\
  (forall type,
     type <> Some "CLEAR_CACHE" ->
     ServiceWorkerEvents.onMessage type caches = caches).
Proof.
  split.
  - intros c. simpl. unfold ServiceWorker.onFetch.
    destruct (negb (String.eqb (ServiceWorker.method request) "GET"));
      [discriminate|].
    destruct (negb (Str.startsWith _ "http")); [discriminate|]. simpl.
    destruct (ServiceWorker.isAudioRequest request).
    { unfold ServiceWorker.matchIn. rewrite partition_open.
      unfold ServiceWorker.partition. simpl. rewrite lookup_empty. discriminate. }
    destruct (ServiceWorker.isStaticAsset request); [discriminate|].
    destruct (ServiceWorker.isAuthRequest request); [discriminate|].
    destruct (ServiceWorker.isApiRequest request); discriminate.
  - intros [t|] Ht; [|reflexivity]. simpl.
    destruct (String.eqb_spec t "CLEAR_CACHE") as [->|Hne];
      [contradiction | reflexivity].
Qed.

Lemma clear_cache_forgets_witness :
  let r := ServiceWorker.mkResponse 200 "ID3" in
  let caches : ServiceWorker.CacheStorage :=
    [("audio-marker-audio-v1", {[ "https://app.example/b.mp3" := r ]})] in
  ServiceWorkerEvents.onMessage (Some "SKIP_WAITING") caches = caches.
Proof.
  intros r caches.
  apply (proj2 (clear_cache_forgets caches
                  (ServiceWorker.mkRequest "GET"
                     (ServiceWorker.mkURL "https://app.example/b.mp3" "https:"
                        "/b.mp3") None))).
  discriminate.
Defined.
